(** * Soil-analysis workflow: a shallow embedding of the two React components

    The repository consists of two client-side components, both in
    [src/components/Header.tsx]: the page header ([Header]) and the workflow
    panel ([SoilAnalyzer]).  Every [useState] cell becomes a record field,
    every handler becomes a computation in a small state-and-failure monad
    over the "world" (component state, toast log, pending timers, the
    browser's object-URL store and the stream of [Math.random] values).

    Conventions of the embedding:
    - a handler built with [useCallback] reads the state through its closure,
      i.e. the snapshot of the render in which it was created; every handler
      below therefore takes that snapshot [r] as an argument, while the
      [setX] calls act on the world;
    - JavaScript numbers are binary64: a number is the rational [Q] it
      denotes, and every literal, sum, difference and product is rounded to
      the nearest binary64 number by [double] (ties to even), except that
      the literals that are binary64 numbers already (the integers, 0.5)
      stand for themselves; the numbers of this program stay below 100 in
      magnitude, far from overflow, and the results of [Math.floor] and
      [Math.round] are integers [Z];
    - strings hold the UTF-8 encoding of their text, so that [trim] can take
      off every white-space code point of ECMAScript, not only the ASCII
      ones;
    - an uncaught [TypeError] (reading a property of [undefined]) is the
      failure [None] of the monad. *)

From Stdlib Require Import ZArith QArith Qround Qabs Qpower Lqa.
From stdpp Require Import base option strings list gmap pretty.

Local Open Scope Z_scope.
Local Open Scope string_scope.
Local Open Scope list_scope.

(** ** JavaScript helpers *)

(** [!!s] for a string: the empty string is the only falsy one. *)
Definition truthy (s : string) : bool :=
  match s with
  | EmptyString => false
  | String _ _ => true
  end.

(** [s.startsWith(p)] *)
Definition startsWith (s p : string) : bool := String.prefix p s.

(** *** [String.prototype.trim]

    [trim] takes off, at both ends, the code points of WhiteSpace and
    LineTerminator: U+0009 to U+000D, U+0020, U+00A0, U+1680, U+2000 to
    U+200A, U+2028, U+2029, U+202F, U+205F, U+3000 and U+FEFF. *)
Definition whiteSpaceCodePoints : list N :=
  [ 9; 10; 11; 12; 13; 32; 160; 5760;
    8192; 8193; 8194; 8195; 8196; 8197; 8198; 8199; 8200; 8201; 8202;
    8232; 8233; 8239; 8287; 12288; 65279 ]%N.

(** The UTF-8 encoding of a code point of the basic plane. *)
Definition utf8 (c : N) : list Ascii.ascii :=
  map Ascii.ascii_of_N
    (if c <? 128 then [c]
     else if c <? 2048 then [192 + c / 64; 128 + c mod 64]
     else [224 + c / 4096; 128 + (c / 64) mod 64; 128 + c mod 64])%N.

Definition whiteSpace : list (list Ascii.ascii) := map utf8 whiteSpaceCodePoints.

(** [stripPrefix p l] is what follows [p] in [l]. *)
Fixpoint stripPrefix (p l : list Ascii.ascii) : option (list Ascii.ascii) :=
  match p, l with
  | [], _ => Some l
  | a :: p', b :: l' => if Ascii.eqb a b then stripPrefix p' l' else None
  | _ :: _, [] => None
  end.

(** One entry of the table taken off the front. *)
Fixpoint stripOne (table : list (list Ascii.ascii)) (l : list Ascii.ascii) :
    option (list Ascii.ascii) :=
  match table with
  | [] => None
  | e :: table' =>
      match stripPrefix e l with
      | Some rest => Some rest
      | None => stripOne table' l
      end
  end.

(** Entries taken off the front for as long as there is one; every entry has
    at least one byte, so [length l] rounds are enough. *)
Fixpoint stripAll (table : list (list Ascii.ascii)) (fuel : nat) (l : list Ascii.ascii) :
    list Ascii.ascii :=
  match fuel with
  | O => l
  | S fuel' =>
      match stripOne table l with
      | Some rest => stripAll table fuel' rest
      | None => l
      end
  end.

Definition trimStart (l : list Ascii.ascii) : list Ascii.ascii :=
  stripAll whiteSpace (length l) l.

(** The end is the start of the reversed text, with the encodings reversed. *)
Definition trimEnd (l : list Ascii.ascii) : list Ascii.ascii :=
  rev (stripAll (map (@rev Ascii.ascii) whiteSpace) (length l) (rev l)).

Definition trim (s : string) : string :=
  String.string_of_list_ascii (trimEnd (trimStart (String.list_ascii_of_string s))).

(** [Math.floor] and [Math.round] (nearest integer, ties towards +infinity),
    on the exact value of their argument. *)
Definition Math_floor (x : Q) : Z := Qfloor x.
Definition Math_round (x : Q) : Z := Qfloor (x + (1 # 2)).

(** *** Binary64 arithmetic

    [ilog2 x] is the exponent of the binade of a positive [x], that is
    [2 ^ ilog2 x <= x < 2 ^ (ilog2 x + 1)]; the binary64 numbers of that
    binade are the multiples of [2 ^ (ilog2 x - 52)], and below the least
    normal number the multiples of [2 ^ -1074]. *)
Definition ilog2 (x : Q) : Z :=
  let e0 := Z.log2 (Qnum x) - Z.log2 (Zpos (Qden x)) in
  if Qle_bool (2 ^ e0) x then e0 else e0 - 1.

Definition ulpExponent (x : Q) : Z := Z.max (ilog2 (Qabs x) - 52) (-1074).

(** The nearest integer, ties to the even one. *)
Definition roundHalfEven (x : Q) : Z :=
  let f := Qfloor x in
  match (x - inject_Z f ?= 1 # 2)%Q with
  | Lt => f
  | Gt => f + 1
  | Eq => if Z.even f then f else f + 1
  end.

(** The binary64 number nearest to [x]. *)
Definition double (x : Q) : Q :=
  (inject_Z (roundHalfEven (x / 2 ^ ulpExponent x)) * 2 ^ ulpExponent x)%Q.

(** The operators [+], [-] and [*] on numbers. *)
Definition Number_add (x y : Q) : Q := double (x + y).
Definition Number_sub (x y : Q) : Q := double (x - y).
Definition Number_mul (x y : Q) : Q := double (x * y).

(** ** Data model (the interfaces of the source) *)

Module File.
Record t := mk { name : string; type : string; size : Z }.
End File.

Module WeatherData.
Record t := mk
  { temperature : Z; humidity : Z; precipitation : Z; description : string }.
End WeatherData.

Module SoilResult.
Record t := mk
  { type : string; confidence : Z; description : string; color : string }.
End SoilResult.

Module CropSuggestion.
Record t := mk
  { name : string; suitability : Z; season : string; reason : string;
    details : string; saved : bool }.
End CropSuggestion.

Module LocationData.
Record t := mk
  { lat : Q; lng : Q; city : option string; state : option string }.
End LocationData.

Module ManualLocation.
Record t := mk { city : string; state : string }.
End ManualLocation.

(** ** The state of [SoilAnalyzer]: one field per [useState] *)

Record State := mkState
  { selectedFile : option File.t;
    previewUrl : string;
    isDragging : bool;
    location : option LocationData.t;
    manualLocation : ManualLocation.t;
    showManualLocation : bool;
    locationLoading : bool;
    weather : option WeatherData.t;
    weatherLoading : bool;
    analyzing : bool;
    soilResult : option SoilResult.t;
    cropSuggestions : list CropSuggestion.t;
    suggestingCrops : bool;
    showImageZoom : bool;
    showMapPicker : bool;
    showExportDialog : bool;
    exportEmail : string;
    selectedCropsForComparison : list string;
    expandedCrop : option string }.

(** The arguments of the [useState] calls. *)
Definition initialState : State :=
  {| selectedFile := None;
     previewUrl := "";
     isDragging := false;
     location := None;
     manualLocation := ManualLocation.mk "" "";
     showManualLocation := false;
     locationLoading := false;
     weather := None;
     weatherLoading := false;
     analyzing := false;
     soilResult := None;
     cropSuggestions := [];
     suggestingCrops := false;
     showImageZoom := false;
     showMapPicker := false;
     showExportDialog := false;
     exportEmail := "";
     selectedCropsForComparison := [];
     expandedCrop := None |}.

(** ** Effects *)

Inductive ToastKind := ToastError | ToastSuccess | ToastInfo.

Record Toast := mkToast { kind : ToastKind; message : string }.

(** The callbacks handed to [setTimeout]. *)
Inductive Callback :=
  | fetchWeather_timeout
  | analyzeSoil_timeout
  | suggestCrops_timeout.

Record Timer := mkTimer { callback : Callback; delay : Z }.

(** The world a handler runs in. [objectURLs] is the set of blob URLs that
    are alive (created and not revoked), [minted] counts the calls of
    [URL.createObjectURL], [entropy n] is the value of the [n]-th call of
    [Math.random] and [draws] counts those calls. *)
Record World := mkWorld
  { state : State;
    toasts : list Toast;
    timers : list Timer;
    objectURLs : gset string;
    minted : nat;
    entropy : nat → Q;
    draws : nat }.

Definition initialWorld (rnd : nat → Q) : World :=
  {| state := initialState;
     toasts := [];
     timers := [];
     objectURLs := ∅;
     minted := 0%nat;
     entropy := rnd;
     draws := 0%nat |}.

(** State and failure: [None] is an uncaught exception. *)
Definition Handler (A : Type) : Type := World → option (A * World).

#[export] Instance Handler_ret : MRet Handler := λ A a w, Some (a, w).
#[export] Instance Handler_bind : MBind Handler :=
  λ A B f m w, match m w with
               | Some (a, w') => f a w'
               | None => None
               end.

Definition throw {A} : Handler A := λ _, None.

(** The three ways a handler changes the world besides the URL store. *)
Definition withState (s : State) (w : World) : World :=
  {| state := s; toasts := toasts w; timers := timers w;
     objectURLs := objectURLs w; minted := minted w;
     entropy := entropy w; draws := draws w |}.

Definition addToast (k : ToastKind) (msg : string) (w : World) : World :=
  {| state := state w; toasts := toasts w ++ [mkToast k msg];
     timers := timers w; objectURLs := objectURLs w;
     minted := minted w; entropy := entropy w; draws := draws w |}.

Definition addTimer (cb : Callback) (ms : Z) (w : World) : World :=
  {| state := state w; toasts := toasts w;
     timers := timers w ++ [mkTimer cb ms];
     objectURLs := objectURLs w; minted := minted w;
     entropy := entropy w; draws := draws w |}.

Definition modifyState (f : State → State) : Handler unit :=
  λ w, Some (tt, withState (f (state w)) w).

Definition toast (k : ToastKind) (msg : string) : Handler unit :=
  λ w, Some (tt, addToast k msg w).

Definition toast_error := toast ToastError.
Definition toast_success := toast ToastSuccess.
Definition toast_info := toast ToastInfo.

Definition setTimeout (cb : Callback) (ms : Z) : Handler unit :=
  λ w, Some (tt, addTimer cb ms w).

(** [URL.createObjectURL]: a fresh, non-empty blob URL that stays alive until
    it is revoked. *)
Definition blobURL (n : nat) : string := "blob:" +:+ pretty n.

Definition URL_createObjectURL (f : File.t) : Handler string :=
  λ w, let url := blobURL (minted w) in
       Some (url, {| state := state w; toasts := toasts w; timers := timers w;
                     objectURLs := {[url]} ∪ objectURLs w; minted := S (minted w);
                     entropy := entropy w; draws := draws w |}).

Definition URL_revokeObjectURL (url : string) : Handler unit :=
  λ w, Some (tt, {| state := state w; toasts := toasts w; timers := timers w;
                    objectURLs := objectURLs w ∖ {[url]}; minted := minted w;
                    entropy := entropy w; draws := draws w |}).

(** [Math.random()]: the next number of the stream, a binary64 number of
    [0, 1) in the browser; the development lets it be any rational of that
    interval. *)
Definition Math_random : Handler Q :=
  λ w, Some (entropy w (draws w),
             {| state := state w; toasts := toasts w; timers := timers w;
                objectURLs := objectURLs w; minted := minted w;
                entropy := entropy w; draws := S (draws w) |}).

(** [xs[i]] followed by a property access: [undefined] throws. *)
Definition index {A} (xs : list A) (i : Z) : Handler A :=
  if (i <? 0)%Z then throw
  else match xs !! Z.to_nat i with
       | Some x => mret x
       | None => throw
       end.

(** ** The [setX] functions returned by [useState] *)

Definition setSelectedFile (v : option File.t) : Handler unit :=
  modifyState (λ s, mkState v (previewUrl s) (isDragging s) (location s)
    (manualLocation s) (showManualLocation s) (locationLoading s) (weather s)
    (weatherLoading s) (analyzing s) (soilResult s) (cropSuggestions s)
    (suggestingCrops s) (showImageZoom s) (showMapPicker s) (showExportDialog s)
    (exportEmail s) (selectedCropsForComparison s) (expandedCrop s)).

Definition setPreviewUrl (v : string) : Handler unit :=
  modifyState (λ s, mkState (selectedFile s) v (isDragging s) (location s)
    (manualLocation s) (showManualLocation s) (locationLoading s) (weather s)
    (weatherLoading s) (analyzing s) (soilResult s) (cropSuggestions s)
    (suggestingCrops s) (showImageZoom s) (showMapPicker s) (showExportDialog s)
    (exportEmail s) (selectedCropsForComparison s) (expandedCrop s)).

Definition withIsDragging (v : bool) (s : State) : State :=
  mkState (selectedFile s) (previewUrl s) v (location s)
    (manualLocation s) (showManualLocation s) (locationLoading s) (weather s)
    (weatherLoading s) (analyzing s) (soilResult s) (cropSuggestions s)
    (suggestingCrops s) (showImageZoom s) (showMapPicker s) (showExportDialog s)
    (exportEmail s) (selectedCropsForComparison s) (expandedCrop s).

Definition setIsDragging (v : bool) : Handler unit :=
  modifyState (withIsDragging v).

Definition setLocation (v : option LocationData.t) : Handler unit :=
  modifyState (λ s, mkState (selectedFile s) (previewUrl s) (isDragging s) v
    (manualLocation s) (showManualLocation s) (locationLoading s) (weather s)
    (weatherLoading s) (analyzing s) (soilResult s) (cropSuggestions s)
    (suggestingCrops s) (showImageZoom s) (showMapPicker s) (showExportDialog s)
    (exportEmail s) (selectedCropsForComparison s) (expandedCrop s)).

(** [setManualLocation] is also called with an updater function. *)
Definition setManualLocation (f : ManualLocation.t → ManualLocation.t) : Handler unit :=
  modifyState (λ s, mkState (selectedFile s) (previewUrl s) (isDragging s) (location s)
    (f (manualLocation s)) (showManualLocation s) (locationLoading s) (weather s)
    (weatherLoading s) (analyzing s) (soilResult s) (cropSuggestions s)
    (suggestingCrops s) (showImageZoom s) (showMapPicker s) (showExportDialog s)
    (exportEmail s) (selectedCropsForComparison s) (expandedCrop s)).

Definition setShowManualLocation (v : bool) : Handler unit :=
  modifyState (λ s, mkState (selectedFile s) (previewUrl s) (isDragging s) (location s)
    (manualLocation s) v (locationLoading s) (weather s)
    (weatherLoading s) (analyzing s) (soilResult s) (cropSuggestions s)
    (suggestingCrops s) (showImageZoom s) (showMapPicker s) (showExportDialog s)
    (exportEmail s) (selectedCropsForComparison s) (expandedCrop s)).

Definition setWeather (v : option WeatherData.t) : Handler unit :=
  modifyState (λ s, mkState (selectedFile s) (previewUrl s) (isDragging s) (location s)
    (manualLocation s) (showManualLocation s) (locationLoading s) v
    (weatherLoading s) (analyzing s) (soilResult s) (cropSuggestions s)
    (suggestingCrops s) (showImageZoom s) (showMapPicker s) (showExportDialog s)
    (exportEmail s) (selectedCropsForComparison s) (expandedCrop s)).

Definition setWeatherLoading (v : bool) : Handler unit :=
  modifyState (λ s, mkState (selectedFile s) (previewUrl s) (isDragging s) (location s)
    (manualLocation s) (showManualLocation s) (locationLoading s) (weather s)
    v (analyzing s) (soilResult s) (cropSuggestions s)
    (suggestingCrops s) (showImageZoom s) (showMapPicker s) (showExportDialog s)
    (exportEmail s) (selectedCropsForComparison s) (expandedCrop s)).

Definition setAnalyzing (v : bool) : Handler unit :=
  modifyState (λ s, mkState (selectedFile s) (previewUrl s) (isDragging s) (location s)
    (manualLocation s) (showManualLocation s) (locationLoading s) (weather s)
    (weatherLoading s) v (soilResult s) (cropSuggestions s)
    (suggestingCrops s) (showImageZoom s) (showMapPicker s) (showExportDialog s)
    (exportEmail s) (selectedCropsForComparison s) (expandedCrop s)).

Definition setSoilResult (v : option SoilResult.t) : Handler unit :=
  modifyState (λ s, mkState (selectedFile s) (previewUrl s) (isDragging s) (location s)
    (manualLocation s) (showManualLocation s) (locationLoading s) (weather s)
    (weatherLoading s) (analyzing s) v (cropSuggestions s)
    (suggestingCrops s) (showImageZoom s) (showMapPicker s) (showExportDialog s)
    (exportEmail s) (selectedCropsForComparison s) (expandedCrop s)).

Definition withCropSuggestions (v : list CropSuggestion.t) (s : State) : State :=
  mkState (selectedFile s) (previewUrl s) (isDragging s) (location s)
    (manualLocation s) (showManualLocation s) (locationLoading s) (weather s)
    (weatherLoading s) (analyzing s) (soilResult s) v
    (suggestingCrops s) (showImageZoom s) (showMapPicker s) (showExportDialog s)
    (exportEmail s) (selectedCropsForComparison s) (expandedCrop s).

(** [setCropSuggestions] takes an updater; a plain value [v] is [λ _, v]. *)
Definition setCropSuggestions
    (f : list CropSuggestion.t → list CropSuggestion.t) : Handler unit :=
  modifyState (λ s, withCropSuggestions (f (cropSuggestions s)) s).

Definition setSuggestingCrops (v : bool) : Handler unit :=
  modifyState (λ s, mkState (selectedFile s) (previewUrl s) (isDragging s) (location s)
    (manualLocation s) (showManualLocation s) (locationLoading s) (weather s)
    (weatherLoading s) (analyzing s) (soilResult s) (cropSuggestions s)
    v (showImageZoom s) (showMapPicker s) (showExportDialog s)
    (exportEmail s) (selectedCropsForComparison s) (expandedCrop s)).

Definition setShowMapPicker (v : bool) : Handler unit :=
  modifyState (λ s, mkState (selectedFile s) (previewUrl s) (isDragging s) (location s)
    (manualLocation s) (showManualLocation s) (locationLoading s) (weather s)
    (weatherLoading s) (analyzing s) (soilResult s) (cropSuggestions s)
    (suggestingCrops s) (showImageZoom s) v (showExportDialog s)
    (exportEmail s) (selectedCropsForComparison s) (expandedCrop s)).

Definition setSelectedCropsForComparison
    (f : list string → list string) : Handler unit :=
  modifyState (λ s, mkState (selectedFile s) (previewUrl s) (isDragging s) (location s)
    (manualLocation s) (showManualLocation s) (locationLoading s) (weather s)
    (weatherLoading s) (analyzing s) (soilResult s) (cropSuggestions s)
    (suggestingCrops s) (showImageZoom s) (showMapPicker s) (showExportDialog s)
    (exportEmail s) (f (selectedCropsForComparison s)) (expandedCrop s)).

Definition setExpandedCrop (v : option string) : Handler unit :=
  modifyState (λ s, mkState (selectedFile s) (previewUrl s) (isDragging s) (location s)
    (manualLocation s) (showManualLocation s) (locationLoading s) (weather s)
    (weatherLoading s) (analyzing s) (soilResult s) (cropSuggestions s)
    (suggestingCrops s) (showImageZoom s) (showMapPicker s) (showExportDialog s)
    (exportEmail s) (selectedCropsForComparison s) v).

(** ** The handlers of [SoilAnalyzer] *)

(** *** File handling *)

Definition handleFileSelect (file : File.t) : Handler unit :=
  if negb (startsWith (File.type file) "image/") then
    toast_error "Please select a valid image file (JPEG or PNG)"
  else if File.size file >? 10 * 1024 * 1024 then
    toast_error "Image size must be less than 10MB"
  else
    setSelectedFile (Some file) ;;
    url ← URL_createObjectURL file ;
    setPreviewUrl url ;;
    toast_success "Image uploaded successfully".

(** [file] is [e.dataTransfer.files[0]]. *)
Definition handleDrop (file : option File.t) : Handler unit :=
  setIsDragging false ;;
  match file with
  | Some f => handleFileSelect f
  | None => mret tt
  end.

(** [file] is [e.target.files?.[0]]. *)
Definition handleFileInputChange (file : option File.t) : Handler unit :=
  match file with
  | Some f => handleFileSelect f
  | None => mret tt
  end.

Definition clearImage (r : State) : Handler unit :=
  setSelectedFile None ;;
  (if truthy (previewUrl r) then
     URL_revokeObjectURL (previewUrl r) ;;
     setPreviewUrl ""
   else mret tt) ;;
  setSoilResult None ;;
  setCropSuggestions (λ _, []) ;;
  toast_info "Image cleared".

(** The camera either is refused ([None]) or delivers a frame, which
    [canvas.toBlob] encodes into a blob of some size or into [null]. *)
Definition captureFromCamera (stream : option (option Z)) : Handler unit :=
  match stream with
  | None => toast_error "Camera access denied or not available"
  | Some None => mret tt
  | Some (Some blobSize) =>
      handleFileSelect (File.mk "camera-capture.jpg" "image/jpeg" blobSize)
  end.

(** *** Location handling *)

Definition handleManualLocationSubmit (r : State) : Handler unit :=
  if negb (truthy (trim (ManualLocation.city (manualLocation r)))) then
    toast_error "Please enter a city name"
  else
    r1 ← Math_random ;
    r2 ← Math_random ;
    let mockCoords :=
      LocationData.mk
        (Number_add (double (407128 # 10000))
                    (Number_mul (Number_sub r1 (1 # 2)) 10))
        (Number_add (- double (740060 # 10000))
                    (Number_mul (Number_sub r2 (1 # 2)) 10))
        (Some (ManualLocation.city (manualLocation r)))
        (Some (ManualLocation.state (manualLocation r))) in
    setLocation (Some mockCoords) ;;
    setShowManualLocation false ;;
    toast_success ("Location set to " +:+ ManualLocation.city (manualLocation r)).

(** The "Confirm Location" button of the map picker. *)
Definition confirmMapLocation : Handler unit :=
  setLocation (Some (LocationData.mk (double (407128 # 10000))
                                     (- double (740060 # 10000))
                                     (Some "New York") (Some "NY"))) ;;
  setShowMapPicker false ;;
  toast_success "Location selected from map".

(** *** Weather handling *)

Definition fetchWeather (r : State) : Handler unit :=
  match location r with
  | None => toast_error "Please set location first"
  | Some _ =>
      setWeatherLoading true ;;
      setTimeout fetchWeather_timeout 2000
  end.

Definition weatherDescriptions : list string :=
  ["Sunny"; "Partly Cloudy"; "Overcast"; "Light Rain"].

(** The literal's fields are evaluated in order; a description outside the
    array would be [undefined], which is no [string]: the model stops there.
    Scaling by 4 is exact in binary64, so the index needs no rounding. *)
Definition fetchWeather_callback : Handler unit :=
  r1 ← Math_random ;
  r2 ← Math_random ;
  r3 ← Math_random ;
  r4 ← Math_random ;
  d ← index weatherDescriptions (Math_floor (r4 * 4)) ;
  let mockWeather :=
    WeatherData.mk (Math_round (Number_add 15 (Number_mul r1 20)))
                   (Math_round (Number_add 40 (Number_mul r2 40)))
                   (Math_round (Number_mul r3 10)) d in
  setWeather (Some mockWeather) ;;
  setWeatherLoading false ;;
  toast_success "Weather data fetched successfully".

(** *** Soil analysis *)

Definition analyzeSoil (r : State) : Handler unit :=
  match selectedFile r with
  | None => toast_error "Please upload an image first"
  | Some _ =>
      setAnalyzing true ;;
      toast_info "Analyzing soil composition..." ;;
      setTimeout analyzeSoil_timeout 3000
  end.

(** The candidates: type, colour, description. *)
Definition soilTypes : list (string * string * string) :=
  [ ("Clay Loam", "#8B4513", "Rich, fertile soil ideal for most crops");
    ("Sandy Loam", "#DEB887", "Well-draining soil good for root vegetables");
    ("Silt Loam", "#A0522D", "Nutrient-rich soil with good water retention");
    ("Clay", "#654321", "Heavy soil that retains water well") ].

(** The product with the length, a power of two, is exact in binary64. *)
Definition analyzeSoil_callback : Handler unit :=
  r1 ← Math_random ;
  selectedSoil ← index soilTypes (Math_floor (r1 * inject_Z (Z.of_nat (length soilTypes)))) ;
  r2 ← Math_random ;
  let confidence := Number_add 75 (Number_mul r2 20) in
  let '(type, color, description) := selectedSoil in
  setSoilResult (Some (SoilResult.mk type (Math_round confidence) description color)) ;;
  setAnalyzing false ;;
  toast_success ("Soil identified as " +:+ type +:+ " (" +:+
                 pretty (Math_round confidence) +:+ "% confidence)").

(** *** Crop suggestions *)

Definition suggestCrops (r : State) : Handler unit :=
  match soilResult r with
  | None => toast_error "Please analyze soil first"
  | Some _ =>
      match weather r with
      | None => toast_error "Weather data required for crop suggestions"
      | Some _ =>
          setSuggestingCrops true ;;
          toast_info "Generating crop suggestions..." ;;
          setTimeout suggestCrops_timeout 2000
      end
  end.

Definition crops : list CropSuggestion.t :=
  [ CropSuggestion.mk "Tomatoes" 92 "Summer"
      "Excellent match for clay loam soil"
      "Clay loam provides ideal drainage and nutrient retention for tomatoes. Current weather conditions are perfect for planting."
      false;
    CropSuggestion.mk "Carrots" 88 "Spring/Fall"
      "Good root development in this soil type"
      "The soil structure allows for proper root expansion. Temperature and humidity levels support healthy growth."
      false;
    CropSuggestion.mk "Lettuce" 85 "Spring/Fall"
      "Thrives in well-draining soil"
      "Quick-growing crop suitable for current soil and weather conditions. Low maintenance requirements."
      false;
    CropSuggestion.mk "Peppers" 90 "Summer"
      "Heat-loving crop suited to current conditions"
      "Warm weather and soil type create ideal growing conditions. Expect high yield potential."
      false ].

Definition suggestCrops_callback : Handler unit :=
  setCropSuggestions (λ _, crops) ;;
  setSuggestingCrops false ;;
  toast_success ("Found " +:+ pretty (length crops) +:+ " crop suggestions").

(** *** Crop actions *)

(** The function mapped over the list by [toggleCropSaved]:
    [crop.name === cropName ? { ...crop, saved: !crop.saved } : crop]. *)
Definition toggleSaved (cropName : string) (crop : CropSuggestion.t) : CropSuggestion.t :=
  if String.eqb (CropSuggestion.name crop) cropName then
    CropSuggestion.mk (CropSuggestion.name crop) (CropSuggestion.suitability crop)
      (CropSuggestion.season crop) (CropSuggestion.reason crop)
      (CropSuggestion.details crop) (negb (CropSuggestion.saved crop))
  else crop.

Definition toggleCropSaved (r : State) (cropName : string) : Handler unit :=
  setCropSuggestions (λ prev, map (toggleSaved cropName) prev) ;;
  match List.find (λ c, String.eqb (CropSuggestion.name c) cropName) (cropSuggestions r) with
  | Some crop =>
      toast_success (CropSuggestion.name crop +:+ " " +:+
                     (if CropSuggestion.saved crop then "removed from" else "added to")
                     +:+ " your plans")
  | None => mret tt
  end.

Definition getState : Handler State := λ w, Some (state w, w).

(** The updater runs on the pending value of the cell. *)
Definition toggleCropComparison (cropName : string) : Handler unit :=
  s ← getState ;
  let prev := selectedCropsForComparison s in
  let isSelected := existsb (String.eqb cropName) prev in
  let newSelection :=
    if isSelected then filter (λ name, name ≠ cropName) prev else prev ++ [cropName] in
  toast_info (cropName +:+ " " +:+ (if isSelected then "removed from" else "added to")
              +:+ " comparison") ;;
  setSelectedCropsForComparison (λ _, newSelection).

(** *** Reset *)

Definition resetAll (r : State) : Handler unit :=
  clearImage r ;;
  setLocation None ;;
  setManualLocation (λ _, ManualLocation.mk "" "") ;;
  setShowManualLocation false ;;
  setWeather None ;;
  setSoilResult None ;;
  setCropSuggestions (λ _, []) ;;
  setSelectedCropsForComparison (λ _, []) ;;
  setExpandedCrop None ;;
  toast_info "All data cleared".

(** *** The cleanup effect on [previewUrl]

    [useEffect(() => () => { if (previewUrl) URL.revokeObjectURL(previewUrl) },
    [previewUrl])]: when a render changes [previewUrl], the cleanup of the
    previous render runs with the previous value [r]. *)
Definition previewUrlCleanup (r : State) : Handler unit :=
  s ← getState ;
  if String.eqb (previewUrl r) (previewUrl s) then mret tt
  else if truthy (previewUrl r) then URL_revokeObjectURL (previewUrl r)
  else mret tt.

(** ** Events and the step function *)

Inductive Event :=
  | FileInputChange (file : option File.t)
  | DropFiles (file : option File.t)
  | DragEnter
  | DragLeave
  | UseCamera (stream : option (option Z))
  | ClickClearImage
  | ToggleManualLocation
  | ChangeCity (v : string)
  | ChangeState (v : string)
  | SubmitManualLocation
  | ConfirmMapLocation
  | ClickFetchWeather
  | ClickAnalyzeSoil
  | ClickSuggestCrops
  | ClickToggleCropSaved (cropName : string)
  | ClickToggleCropComparison (cropName : string)
  | ClickReset
  | TimerFires (i : nat).

Definition runCallback (cb : Callback) : Handler unit :=
  match cb with
  | fetchWeather_timeout => fetchWeather_callback
  | analyzeSoil_timeout => analyzeSoil_callback
  | suggestCrops_timeout => suggestCrops_callback
  end.

(** The [i]-th pending timer expires: it leaves the queue and its callback
    runs.  Nothing happens when there is no such timer. *)
Definition fireTimer (i : nat) : Handler unit :=
  λ w, match timers w !! i with
       | Some t =>
           runCallback (callback t)
             {| state := state w; toasts := toasts w;
                timers := take i (timers w) ++ drop (S i) (timers w);
                objectURLs := objectURLs w; minted := minted w;
                entropy := entropy w; draws := draws w |}
       | None => Some (tt, w)
       end.

(** The handler bound to an event, closed over the rendered state [r]. *)
Definition handle (e : Event) (r : State) : Handler unit :=
  match e with
  | FileInputChange file => handleFileInputChange file
  | DropFiles file => handleDrop file
  | DragEnter => setIsDragging true
  | DragLeave => setIsDragging false
  | UseCamera stream => captureFromCamera stream
  | ClickClearImage => clearImage r
  | ToggleManualLocation => setShowManualLocation (negb (showManualLocation r))
  | ChangeCity v =>
      setManualLocation (λ prev, ManualLocation.mk v (ManualLocation.state prev))
  | ChangeState v =>
      setManualLocation (λ prev, ManualLocation.mk (ManualLocation.city prev) v)
  | SubmitManualLocation => handleManualLocationSubmit r
  | ConfirmMapLocation => confirmMapLocation
  | ClickFetchWeather => fetchWeather r
  | ClickAnalyzeSoil => analyzeSoil r
  | ClickSuggestCrops => suggestCrops r
  | ClickToggleCropSaved cropName => toggleCropSaved r cropName
  | ClickToggleCropComparison cropName => toggleCropComparison cropName
  | ClickReset => resetAll r
  | TimerFires i => fireTimer i
  end.

(** One event: the handler runs on the current render, then React commits
    the new state and runs the effect cleanup. *)
Definition dispatch (e : Event) (w : World) : option World :=
  snd <$> (handle e (state w) ;; previewUrlCleanup (state w)) w.

Fixpoint run (es : list Event) (w : World) : option World :=
  match es with
  | [] => Some w
  | e :: es' =>
      match dispatch e w with
      | Some w' => run es' w'
      | None => None
      end
  end.

(** [Math.random] returns a number in [0, 1). *)
Definition unitInterval (rnd : nat → Q) : Prop :=
  ∀ n, (0 <= rnd n)%Q ∧ (rnd n < 1)%Q.

Definition reachable (w : World) : Prop :=
  ∃ rnd es, unitInterval rnd ∧ run es (initialWorld rnd) = Some w.

(** ** The [Header] component *)

Module Header.

Record Notification := mkNotification
  { id : string; title : string; message : string; timestamp : string;
    read : bool }.

Record State := mkState
  { searchValue : string;
    isSettingsOpen : bool;
    weatherAlerts : bool;
    notifications : list Notification;
    isNotificationsOpen : bool;
    isMobile : bool }.

Definition initialState : State :=
  {| searchValue := "";
     isSettingsOpen := false;
     weatherAlerts := true;
     notifications :=
       [ mkNotification "1" "Soil Analysis Complete"
           "Your clay soil analysis is ready for review" "2 min ago" false;
         mkNotification "2" "Weather Alert"
           "Heavy rain expected in your area tomorrow" "1 hour ago" false ];
     isNotificationsOpen := false;
     isMobile := false |}.

Definition setIsSettingsOpen (v : bool) (s : State) : State :=
  mkState (searchValue s) v (weatherAlerts s) (notifications s)
          (isNotificationsOpen s) (isMobile s).

Definition setWeatherAlerts (v : bool) (s : State) : State :=
  mkState (searchValue s) (isSettingsOpen s) v (notifications s)
          (isNotificationsOpen s) (isMobile s).

(** The settings button: [onClick={() => setIsSettingsOpen(true)}]. *)
Definition openSettings : State → State := setIsSettingsOpen true.

(** The switch: [checked={weatherAlerts} onCheckedChange={setWeatherAlerts}]. *)
Definition onCheckedChange : bool → State → State := setWeatherAlerts.

(** The Cancel button: [onClick={() => setIsSettingsOpen(false)}]. *)
Definition cancelSettings : State → State := setIsSettingsOpen false.

(** The "Save changes" button. *)
Definition handleSettingsSave (s : State) : State * list Toast :=
  (setIsSettingsOpen false s, [mkToast ToastSuccess "Settings saved successfully"]).

(** What the user does while the dialog is open: flip the switch. *)
Fixpoint switchAll (bs : list bool) (s : State) : State :=
  match bs with
  | [] => s
  | b :: bs' => switchAll bs' (onCheckedChange b s)
  end.

Definition setNotifications
    (f : list Notification → list Notification) (s : State) : State :=
  mkState (searchValue s) (isSettingsOpen s) (weatherAlerts s) (f (notifications s))
          (isNotificationsOpen s) (isMobile s).

(** [notifications.filter(n => !n.read).length] *)
Definition unreadCount (s : State) : nat :=
  length (List.filter (λ n, negb (read n)) (notifications s)).

(** The function mapped over the list by [handleNotificationClick]:
    [n.id === id ? { ...n, read: true } : n]. *)
Definition markRead (id0 : string) (n : Notification) : Notification :=
  if String.eqb (id n) id0 then
    mkNotification (id n) (title n) (message n) (timestamp n) true
  else n.

Definition handleNotificationClick (id0 : string) : State → State :=
  setNotifications (λ prev, map (markRead id0) prev).

(** Clicking the notifications with the given ids, one after the other. *)
Fixpoint clickAll (ids : list string) (s : State) : State :=
  match ids with
  | [] => s
  | i :: ids' => clickAll ids' (handleNotificationClick i s)
  end.

End Header.

Local Open Scope Z_scope.

(** ** Vocabulary of the specification *)

(** The five workflow entities: uploaded image (file and preview), location,
    weather snapshot, soil result and crop suggestions. *)
Definition entities (s : State) :=
  (selectedFile s, previewUrl s, location s, weather s, soilResult s,
   cropSuggestions s).

(** The three ways a file reaches [handleFileSelect]: the file input, a drop,
    and a camera capture (which builds the file itself). *)
Inductive selects : Event → File.t → Prop :=
  | selects_input f : selects (FileInputChange (Some f)) f
  | selects_drop f : selects (DropFiles (Some f)) f
  | selects_camera n :
      selects (UseCamera (Some (Some n))) (File.mk "camera-capture.jpg" "image/jpeg" n).

(** The rejected transitions, by the guard that fails in state [s]. *)
Inductive Rejected (s : State) : Event → Prop :=
  | rejected_type e f :
      selects e f → startsWith (File.type f) "image/" = false → Rejected s e
  | rejected_size e f :
      selects e f → 10 * 1024 * 1024 < File.size f → Rejected s e
  | rejected_city :
      ManualLocation.city (manualLocation s) = "" → Rejected s SubmitManualLocation
  | rejected_fetch : location s = None → Rejected s ClickFetchWeather
  | rejected_analyze : selectedFile s = None → Rejected s ClickAnalyzeSoil
  | rejected_suggest_soil : soilResult s = None → Rejected s ClickSuggestCrops
  | rejected_suggest_weather : weather s = None → Rejected s ClickSuggestCrops.

(** The state a rejected event leaves: a drop resets the drag highlight before
    it looks at the file, every other rejected handler sets nothing. *)
Definition afterRejected (e : Event) (s : State) : State :=
  match e with
  | DropFiles _ => withIsDragging false s
  | _ => s
  end.

Definition soilTypeNames : list string :=
  ["Clay Loam"; "Sandy Loam"; "Silt Loam"; "Clay"].

(** ** Sample data for the examples *)

Definition half : nat → Q := λ _, (1 # 2)%Q.

Definition jpeg2MB : File.t := File.mk "soil.jpg" "image/jpeg" (2 * 1024 * 1024).
Definition pdf : File.t := File.mk "report.pdf" "application/pdf" 1024.

(** The scenario of the specification: upload, analyse, locate, fetch the
    weather, ask for crops. *)
Definition scenario : list Event :=
  [ FileInputChange (Some jpeg2MB); ClickAnalyzeSoil; TimerFires 0;
    ChangeCity "Austin"; SubmitManualLocation; ClickFetchWeather; TimerFires 0;
    ClickSuggestCrops; TimerFires 0 ].

(** The world after the scenario has run with every random draw at 1/2. *)
Definition scenarioWorld : World :=
  default (initialWorld half) (run scenario (initialWorld half)).

(** ** Detecting the location

    [navigator.geolocation] is the browser's: [supported] says whether it is
    there, and the two callbacks handed to [getCurrentPosition] are run by the
    browser later, at most one of them. *)

Definition setLocationLoading (v : bool) : Handler unit :=
  modifyState (λ s, mkState (selectedFile s) (previewUrl s) (isDragging s) (location s)
    (manualLocation s) (showManualLocation s) v (weather s)
    (weatherLoading s) (analyzing s) (soilResult s) (cropSuggestions s)
    (suggestingCrops s) (showImageZoom s) (showMapPicker s) (showExportDialog s)
    (exportEmail s) (selectedCropsForComparison s) (expandedCrop s)).

Definition detectLocation (supported : bool) : Handler unit :=
  if negb supported then
    toast_error "Geolocation is not supported by your browser"
  else
    setLocationLoading true.

(** The success callback, with [position.coords]. *)
Definition detectLocation_success (latitude longitude : Q) : Handler unit :=
  setLocation (Some (LocationData.mk latitude longitude None None)) ;;
  setLocationLoading false ;;
  toast_success "Location detected successfully".

(** The error callback. *)
Definition detectLocation_error : Handler unit :=
  setLocationLoading false ;;
  toast_error "Failed to detect location. Please enter manually." ;;
  setShowManualLocation true.

(** ** More vocabulary *)

(** A timer with the given callback is pending. *)
Definition pending (cb : Callback) (w : World) : Prop :=
  ∃ ms, mkTimer cb ms ∈ timers w.

(** A suggestion with its bookmark removed. *)
Definition unsave (c : CropSuggestion.t) : CropSuggestion.t :=
  CropSuggestion.mk (CropSuggestion.name c) (CropSuggestion.suitability c)
    (CropSuggestion.season c) (CropSuggestion.reason c) (CropSuggestion.details c) false.

(** The texts made of entries of the table, one after the other. *)
Definition concatOf (table : list (list Ascii.ascii)) (l : list Ascii.ascii) : Prop :=
  ∃ es, Forall (λ e, e ∈ table) es ∧ l = List.concat es.

(** A string of white-space code points only, the empty string included. *)
Definition WhiteSpaceOnly (s : string) : Prop :=
  ∃ cs : list N,
    Forall (λ c, c ∈ whiteSpaceCodePoints) cs
    ∧ String.list_ascii_of_string s = List.concat (map utf8 cs).

(** No entry of the table starts another one, and none is empty. *)
Definition prefixFree (table : list (list Ascii.ascii)) : Prop :=
  Forall (λ e, e ≠ [] ∧ Forall (λ e', e `prefix_of` e' → e = e') table) table.

(** The binary64 numbers, overflow apart: [m * 2 ^ q] with a significand of
    at most 53 bits and an exponent of at least -1074. *)
Definition isDouble (f : Q) : Prop :=
  ∃ m q : Z, -1074 ≤ q ∧ Z.abs m ≤ 2 ^ 53 ∧ (f == inject_Z m * 2 ^ q)%Q.

(** The three values that the specification gives to [weather], [soil] and
    [crops]: while the flag of the operation is up the entity is in progress
    (loading, analyzing, suggesting: the button shows its spinner and is
    disabled), otherwise it is present or absent as its data cell says. *)
Inductive Progress := Absent | InProgress | Present.

Definition weatherStatus (s : State) : Progress :=
  if weatherLoading s then InProgress
  else match weather s with Some _ => Present | None => Absent end.

Definition soilStatus (s : State) : Progress :=
  if analyzing s then InProgress
  else match soilResult s with Some _ => Present | None => Absent end.

Definition cropsStatus (s : State) : Progress :=
  if suggestingCrops s then InProgress
  else match cropSuggestions s with _ :: _ => Present | [] => Absent end.

(** A session in which the analysis of an uploaded image is still running. *)
Definition analysisPending : World :=
  default (initialWorld half)
    (run [FileInputChange (Some jpeg2MB); ClickAnalyzeSoil] (initialWorld half)).

(** A session in which the analysis of the image and the weather request
    are both still running. *)
Definition busyWorld : World :=
  default (initialWorld half)
    (run [ FileInputChange (Some jpeg2MB); ClickAnalyzeSoil; ToggleManualLocation;
           ChangeCity "Austin"; SubmitManualLocation; ClickFetchWeather ]
         (initialWorld half)).

(** ** Reasoning about handlers *)

(** Handlers are run call-by-value: a lazy strategy would copy the pending
    world once for every field it later projects. *)
Ltac handler_unfold :=
  unfold dispatch, handle, mbind, Handler_bind, mret, Handler_ret, fmap, option_fmap, option_map.

Ltac handler_step :=
  cbv beta iota zeta delta
      [mbind Handler_bind mret Handler_ret
       toast_error toast_success toast_info toast setTimeout modifyState
       setSelectedFile setPreviewUrl setIsDragging setLocation setManualLocation
       setShowManualLocation setWeather setWeatherLoading setAnalyzing
       setSoilResult setCropSuggestions setSuggestingCrops setShowMapPicker
       setSelectedCropsForComparison setExpandedCrop getState
       withIsDragging withCropSuggestions
       URL_createObjectURL URL_revokeObjectURL Math_random
       state toasts timers objectURLs minted entropy draws withState addToast addTimer
       selectedFile previewUrl isDragging location manualLocation showManualLocation
       locationLoading weather weatherLoading analyzing soilResult cropSuggestions
       suggestingCrops showImageZoom showMapPicker showExportDialog exportEmail
       selectedCropsForComparison expandedCrop
       fst snd].

(** Records are opened before a handler is run, so that every projection
    meets a constructor. *)
Ltac open_world w :=
  let s := fresh "s" in
  destruct w as [s ? ? ? ? ? ?]; destruct s; cbn [state] in *.

Ltac open_state r := destruct r; cbn [previewUrl] in *.

Lemma world_eta (w : World) :
  mkWorld (state w) (toasts w) (timers w) (objectURLs w) (minted w) (entropy w) (draws w) = w.
Proof. by destruct w. Qed.

Lemma state_eta (s : State) :
  mkState (selectedFile s) (previewUrl s) (isDragging s) (location s)
    (manualLocation s) (showManualLocation s) (locationLoading s) (weather s)
    (weatherLoading s) (analyzing s) (soilResult s) (cropSuggestions s)
    (suggestingCrops s) (showImageZoom s) (showMapPicker s) (showExportDialog s)
    (exportEmail s) (selectedCropsForComparison s) (expandedCrop s) = s.
Proof. by destruct s. Qed.

Lemma truthy_true (s : string) : truthy s = true ↔ s ≠ "".
Proof. destruct s; simpl; split; intros; congruence. Qed.

Lemma String_eqb_true (a b : string) : String.eqb a b = true ↔ a = b.
Proof. apply String.eqb_eq. Qed.


(** The cleanup effect touches nothing but the URL store, where it can only
    revoke the preview of the previous render. *)
Lemma previewUrlCleanup_spec (r : State) (w : World) :
  ∃ w', previewUrlCleanup r w = Some (tt, w')
    ∧ state w' = state w ∧ toasts w' = toasts w ∧ timers w' = timers w
    ∧ minted w' = minted w ∧ entropy w' = entropy w ∧ draws w' = draws w
    ∧ (∀ u, u ∈ objectURLs w' ↔
            u ∈ objectURLs w ∧ ¬ (u = previewUrl r ∧ u ≠ "" ∧ u ≠ previewUrl (state w))).
Proof.
  unfold previewUrlCleanup, getState, mbind, Handler_bind.
  destruct (String.eqb (previewUrl r) (previewUrl (state w))) eqn:He.
  - apply String_eqb_true in He. exists w. split_and!; try done.
    intros u. intuition congruence.
  - apply String.eqb_neq in He.
    destruct (truthy (previewUrl r)) eqn:Ht.
    + apply truthy_true in Ht. eexists. split; [reflexivity|].
      cbn [state toasts timers minted entropy draws objectURLs].
      split_and!; try done. intros u. rewrite elem_of_difference, elem_of_singleton.
      intuition congruence.
    + assert (previewUrl r = "") as Hempty by (destruct (previewUrl r); [done|discriminate]).
      exists w. split_and!; try done. intros u. intuition congruence.
Qed.

(** A step is its handler followed by the cleanup. *)
Lemma dispatch_handle (e : Event) (w w1 : World) :
  handle e (state w) w = Some (tt, w1) →
  ∃ w', dispatch e w = Some w'
    ∧ state w' = state w1 ∧ toasts w' = toasts w1 ∧ timers w' = timers w1
    ∧ minted w' = minted w1 ∧ entropy w' = entropy w1 ∧ draws w' = draws w1
    ∧ (∀ u, u ∈ objectURLs w' ↔
            u ∈ objectURLs w1 ∧
            ¬ (u = previewUrl (state w) ∧ u ≠ "" ∧ u ≠ previewUrl (state w1))).
Proof.
  intros Hh.
  destruct (previewUrlCleanup_spec (state w) w1) as (w' & Hc & Hrest).
  exists w'. split; [|exact Hrest].
  unfold dispatch. unfold mbind, Handler_bind, fmap, option_fmap, option_map.
  by rewrite Hh, Hc.
Qed.

(** When the preview did not change, the step is exactly the handler. *)
Lemma dispatch_same_preview (e : Event) (w w1 : World) :
  handle e (state w) w = Some (tt, w1) →
  previewUrl (state w1) = previewUrl (state w) →
  dispatch e w = Some w1.
Proof.
  intros Hh Hp. unfold dispatch, previewUrlCleanup, getState.
  unfold mbind, Handler_bind, fmap, option_fmap, option_map.
  rewrite Hh, Hp, String.eqb_refl. reflexivity.
Qed.

Lemma clearImage_spec (r : State) (w : World) :
  ∃ w1, clearImage r w = Some (tt, w1)
    ∧ selectedFile (state w1) = None
    ∧ previewUrl (state w1) = (if truthy (previewUrl r) then "" else previewUrl (state w))
    ∧ soilResult (state w1) = None
    ∧ cropSuggestions (state w1) = []
    ∧ objectURLs w1 =
        (if truthy (previewUrl r) then objectURLs w ∖ {[previewUrl r]} else objectURLs w).
Proof.
  open_world w. open_state r. unfold clearImage.
  destruct (truthy _); handler_step; eexists; (split; [reflexivity|]); by handler_step.
Qed.

(** What [clearImage] does not touch: the flags of the running operations
    and the pending timers. *)
Lemma clearImage_frame (r : State) (w : World) :
  ∃ w1, clearImage r w = Some (tt, w1)
    ∧ weatherLoading (state w1) = weatherLoading (state w)
    ∧ analyzing (state w1) = analyzing (state w)
    ∧ suggestingCrops (state w1) = suggestingCrops (state w)
    ∧ timers w1 = timers w.
Proof.
  open_world w. open_state r. unfold clearImage.
  destruct (truthy _); handler_step; eexists; (split; [reflexivity|]); by handler_step.
Qed.

Lemma analysisPending_runs :
  run [FileInputChange (Some jpeg2MB); ClickAnalyzeSoil] (initialWorld half)
  = Some analysisPending.
Proof. vm_compute. reflexivity. Qed.

Lemma busyWorld_runs :
  run [ FileInputChange (Some jpeg2MB); ClickAnalyzeSoil; ToggleManualLocation;
        ChangeCity "Austin"; SubmitManualLocation; ClickFetchWeather ]
      (initialWorld half)
  = Some busyWorld.
Proof. vm_compute. reflexivity. Qed.

(** The three values along the scenario: absent at the start, in progress
    from the click to the timer, present afterwards. *)
Example status_follows_the_transitions :
  let after (es : list Event) :=
    state (default (initialWorld half) (run es (initialWorld half))) in
  soilStatus (after []) = Absent
  ∧ soilStatus (after [FileInputChange (Some jpeg2MB); ClickAnalyzeSoil]) = InProgress
  ∧ soilStatus (after [FileInputChange (Some jpeg2MB); ClickAnalyzeSoil; TimerFires 0])
    = Present
  ∧ weatherStatus (state busyWorld) = InProgress
  ∧ weatherStatus (state scenarioWorld) = Present
  ∧ cropsStatus (state busyWorld) = Absent
  ∧ cropsStatus (state scenarioWorld) = Present.
Proof. by vm_compute. Qed.

(** ** Clearing the image *)

(** C3, as the code behaves. From every state, clearing the image leaves no
    selected file and no preview, no soil result and an empty crop list,
    whatever they were, and the preview URL the cleared image held is no
    longer alive. Nothing is cancelled: the analyzing and suggesting flags and
    the pending timers stay as they were, so that [soil] is absent afterwards
    exactly when no analysis was running, and is still analyzing otherwise;
    likewise [crops] is absent exactly when no suggestion was running. *)
Theorem clearImage_clears_data_keeps_progress (w : World) :
  ∃ w', dispatch ClickClearImage w = Some w'
    ∧ selectedFile (state w') = None
    ∧ previewUrl (state w') = ""
    ∧ soilResult (state w') = None
    ∧ cropSuggestions (state w') = []
    ∧ (previewUrl (state w) ≠ "" → previewUrl (state w) ∉ objectURLs w')
    ∧ analyzing (state w') = analyzing (state w)
    ∧ suggestingCrops (state w') = suggestingCrops (state w)
    ∧ timers w' = timers w
    ∧ soilStatus (state w') = (if analyzing (state w) then InProgress else Absent)
    ∧ cropsStatus (state w') = (if suggestingCrops (state w) then InProgress else Absent).
Proof.
  destruct (clearImage_spec (state w) w) as (w1 & Hh & Hf & Hp & Hs & Hc & Hu).
  destruct (clearImage_frame (state w) w) as (w1' & Hh' & _ & Ha & Hsg & Htm).
  assert (w1' = w1) as -> by congruence.
  destruct (dispatch_handle ClickClearImage w w1 Hh)
    as (w' & Hd & Hst & _ & Htm' & _ & _ & _ & Hurls).
  exists w'. unfold soilStatus, cropsStatus. rewrite Hst, Htm', Hs, Hc, Ha, Hsg.
  split_and!; try done.
  - rewrite Hp. by destruct (previewUrl (state w)).
  - intros Hne Hin. apply Hurls in Hin as [Hin _].
    apply truthy_true in Hne. rewrite Hu, Hne in Hin.
    apply elem_of_difference in Hin as [_ Hin]. apply Hin. by apply elem_of_singleton.
Qed.

(** C3 as stated fails: while the analysis of an uploaded image is running
    (the file chosen, "Analyze Soil" clicked, the three seconds not yet over)
    "Clear Image" removes the image, but the analyzing flag stays up and the
    timer stays queued: [soil] is analyzing, not absent. *)
Lemma clearImage_soil_absent_counterexample :
  ¬ (∀ w w' : World,
       reachable w →
       dispatch ClickClearImage w = Some w' →
       selectedFile (state w') = None
       ∧ soilStatus (state w') = Absent
       ∧ cropsStatus (state w') = Absent).
Proof.
  intros Hclaim.
  assert (reachable analysisPending) as Hreach.
  { exists half, [FileInputChange (Some jpeg2MB); ClickAnalyzeSoil].
    split; [intros n; split; unfold half; [discriminate | reflexivity]
           | apply analysisPending_runs]. }
  destruct (dispatch ClickClearImage analysisPending) as [w'|] eqn:Hd;
    [|vm_compute in Hd; discriminate].
  destruct (Hclaim analysisPending w' Hreach Hd) as (_ & Hsoil & _).
  vm_compute in Hd. injection Hd as <-. discriminate Hsoil.
Qed.

(** ** Reset *)

Lemma resetAll_spec (r : State) (w : World) :
  ∃ w1, resetAll r w = Some (tt, w1)
    ∧ selectedFile (state w1) = None
    ∧ previewUrl (state w1) = (if truthy (previewUrl r) then "" else previewUrl (state w))
    ∧ location (state w1) = None
    ∧ weather (state w1) = None
    ∧ soilResult (state w1) = None
    ∧ cropSuggestions (state w1) = []
    ∧ manualLocation (state w1) = ManualLocation.mk "" ""
    ∧ showManualLocation (state w1) = false
    ∧ selectedCropsForComparison (state w1) = []
    ∧ expandedCrop (state w1) = None
    ∧ objectURLs w1 =
        (if truthy (previewUrl r) then objectURLs w ∖ {[previewUrl r]} else objectURLs w).
Proof.
  open_world w. open_state r. unfold resetAll, clearImage.
  destruct (truthy _); handler_step; eexists; (split; [reflexivity|]); by handler_step.
Qed.

(** What the reset does not touch: the in-progress flags, the dialogs, and
    the pending timers (nothing is cancelled). *)
Lemma resetAll_frame (r : State) (w : World) :
  ∃ w1, resetAll r w = Some (tt, w1)
    ∧ locationLoading (state w1) = locationLoading (state w)
    ∧ weatherLoading (state w1) = weatherLoading (state w)
    ∧ analyzing (state w1) = analyzing (state w)
    ∧ suggestingCrops (state w1) = suggestingCrops (state w)
    ∧ isDragging (state w1) = isDragging (state w)
    ∧ showImageZoom (state w1) = showImageZoom (state w)
    ∧ showMapPicker (state w1) = showMapPicker (state w)
    ∧ showExportDialog (state w1) = showExportDialog (state w)
    ∧ exportEmail (state w1) = exportEmail (state w)
    ∧ timers w1 = timers w.
Proof.
  open_world w. open_state r. unfold resetAll, clearImage.
  destruct (truthy _); handler_step; eexists; (split; [reflexivity|]); by handler_step.
Qed.

(** C7, as the code behaves. From every state (reachable or not), the reset
    leaves every data cell at its initial value: no file and no preview, no
    location, no weather, no soil result, no crop suggestion, an empty
    manual-location form and comparison selection; the preview URL that was
    held is no longer alive. The cells it never writes keep their values: the
    four in-progress flags, the drag highlight, the three dialog flags and the
    export address; and no timer is cancelled. So [weather], [soil] and
    [crops] are absent afterwards exactly when their operation was not
    running, and the state is the initial one exactly when the cells that the
    reset does not write were at their initial values already. *)
Theorem resetAll_restores_data_keeps_progress (w : World) :
  ∃ w', dispatch ClickReset w = Some w'
    ∧ entities (state w') = entities initialState
    ∧ manualLocation (state w') = manualLocation initialState
    ∧ showManualLocation (state w') = showManualLocation initialState
    ∧ selectedCropsForComparison (state w') = selectedCropsForComparison initialState
    ∧ expandedCrop (state w') = expandedCrop initialState
    ∧ (previewUrl (state w) ≠ "" → previewUrl (state w) ∉ objectURLs w')
    ∧ locationLoading (state w') = locationLoading (state w)
    ∧ weatherLoading (state w') = weatherLoading (state w)
    ∧ analyzing (state w') = analyzing (state w)
    ∧ suggestingCrops (state w') = suggestingCrops (state w)
    ∧ isDragging (state w') = isDragging (state w)
    ∧ showImageZoom (state w') = showImageZoom (state w)
    ∧ showMapPicker (state w') = showMapPicker (state w)
    ∧ showExportDialog (state w') = showExportDialog (state w)
    ∧ exportEmail (state w') = exportEmail (state w)
    ∧ timers w' = timers w
    ∧ weatherStatus (state w') = (if weatherLoading (state w) then InProgress else Absent)
    ∧ soilStatus (state w') = (if analyzing (state w) then InProgress else Absent)
    ∧ cropsStatus (state w') = (if suggestingCrops (state w) then InProgress else Absent)
    ∧ (state w' = initialState ↔
         locationLoading (state w) = false ∧ weatherLoading (state w) = false
         ∧ analyzing (state w) = false ∧ suggestingCrops (state w) = false
         ∧ isDragging (state w) = false ∧ showImageZoom (state w) = false
         ∧ showMapPicker (state w) = false ∧ showExportDialog (state w) = false
         ∧ exportEmail (state w) = "").
Proof.
  destruct (resetAll_spec (state w) w)
    as (w1 & Hh & Hf & Hp & Hl & Hw & Hs & Hc & Hm & Hsm & Hcmp & Hx & Hu).
  destruct (resetAll_frame (state w) w)
    as (w1' & Hh' & Hll & Hwl & Han & Hsg & Hdr & Hz & Hmp & Hex & Hem & Htm).
  assert (w1' = w1) as -> by congruence.
  destruct (dispatch_handle ClickReset w w1 Hh)
    as (w' & Hd & Hst & _ & Htm' & _ & _ & _ & Hurls).
  assert (previewUrl (state w1) = "") as Hp'.
  { rewrite Hp. by destruct (previewUrl (state w)). }
  exists w'. unfold entities, weatherStatus, soilStatus, cropsStatus.
  rewrite Hst, Htm', Hf, Hp', Hl, Hw, Hs, Hc, Hm, Hsm, Hcmp, Hx,
    Hll, Hwl, Han, Hsg, Hdr, Hz, Hmp, Hex, Hem, Htm.
  split_and!; try done.
  - intros Hne Hin. apply Hurls in Hin as [Hin _].
    apply truthy_true in Hne. rewrite Hu, Hne in Hin.
    apply elem_of_difference in Hin as [_ Hin]. apply Hin. by apply elem_of_singleton.
  - rewrite <- (state_eta (state w1)).
    rewrite Hf, Hp', Hl, Hw, Hs, Hc, Hm, Hsm, Hcmp, Hx,
      Hll, Hwl, Han, Hsg, Hdr, Hz, Hmp, Hex, Hem.
    split.
    + intros Heq. unfold initialState in Heq. injection Heq as -> -> -> -> -> -> -> -> ->.
      by split_and!.
    + intros (-> & -> & -> & -> & -> & -> & -> & -> & ->). reflexivity.
Qed.

(** C7 as stated fails: with the analysis of the image and the weather
    request both running (file chosen, "Analyze Soil" clicked, the city typed
    and submitted, "Fetch Weather" clicked, no timer over yet) the reset
    empties the data cells but lowers no flag and cancels no timer: [weather]
    is still loading and [soil] still analyzing, so the state is not the
    initial one. *)
Lemma resetAll_initial_state_counterexample :
  ¬ (∀ w w' : World,
       reachable w →
       dispatch ClickReset w = Some w' →
       selectedFile (state w') = None
       ∧ location (state w') = None
       ∧ weatherStatus (state w') = Absent
       ∧ soilStatus (state w') = Absent
       ∧ cropsStatus (state w') = Absent).
Proof.
  intros Hclaim.
  assert (reachable busyWorld) as Hreach.
  { eexists half, _.
    split; [intros n; split; unfold half; [discriminate | reflexivity]
           | apply busyWorld_runs]. }
  destruct (dispatch ClickReset busyWorld) as [w'|] eqn:Hd;
    [|vm_compute in Hd; discriminate].
  destruct (Hclaim busyWorld w' Hreach Hd) as (_ & _ & Hweather & _ & _).
  vm_compute in Hd. injection Hd as <-. discriminate Hweather.
Qed.

(** ** Selecting an image *)

Lemma half_unitInterval : unitInterval half.
Proof. intros n. split; unfold half; [discriminate | reflexivity]. Qed.

Lemma scenario_runs : run scenario (initialWorld half) = Some scenarioWorld.
Proof. vm_compute. reflexivity. Qed.

Lemma scenarioWorld_reachable : reachable scenarioWorld.
Proof. exists half, scenario. split; [apply half_unitInterval | apply scenario_runs]. Qed.

Lemma blobURL_nonempty (n : nat) : blobURL n ≠ "".
Proof. unfold blobURL. cbn. discriminate. Qed.

(** An accepted file: what [handleFileSelect] does to the world. *)
Lemma handleFileSelect_accept (file : File.t) (w : World) :
  startsWith (File.type file) "image/" = true →
  File.size file ≤ 10 * 1024 * 1024 →
  ∃ w1, handleFileSelect file w = Some (tt, w1)
    ∧ selectedFile (state w1) = Some file
    ∧ previewUrl (state w1) = blobURL (minted w)
    ∧ soilResult (state w1) = soilResult (state w)
    ∧ cropSuggestions (state w1) = cropSuggestions (state w)
    ∧ location (state w1) = location (state w)
    ∧ weather (state w1) = weather (state w)
    ∧ toasts w1 = toasts w ++ [mkToast ToastSuccess "Image uploaded successfully"]
    ∧ timers w1 = timers w
    ∧ objectURLs w1 = {[blobURL (minted w)]} ∪ objectURLs w.
Proof.
  intros Htype Hsize. unfold handleFileSelect. rewrite Htype.
  assert ((File.size file >? 10 * 1024 * 1024) = false) as ->.
  { rewrite Z.gtb_ltb. by apply Z.ltb_ge. }
  cbn [negb]. open_world w. handler_step.
  eexists. split; [reflexivity|]. by handler_step.
Qed.

(** How the three entry points reach [handleFileSelect]. *)
Lemma handle_selects (e : Event) (file : File.t) (w : World) :
  selects e file →
  handle e (state w) w = handleFileSelect file (withState (afterRejected e (state w)) w).
Proof.
  intros [f|f|n]; cbn [handle afterRejected handleFileInputChange handleDrop captureFromCamera].
  - by destruct w.
  - unfold setIsDragging, modifyState, mbind, Handler_bind. reflexivity.
  - by destruct w.
Qed.

(** C1, as the code behaves. For every file of an image type and of at most
    10 MB, each way of selecting it (file input, drop, camera) stores the file
    and a fresh, live, non-empty preview URL; the soil result and the crop
    suggestions, like the location and the weather, stay as they were. *)
Theorem select_image_keeps_results (w : World) (e : Event) (file : File.t) :
  selects e file →
  startsWith (File.type file) "image/" = true →
  File.size file ≤ 10 * 1024 * 1024 →
  ∃ w', dispatch e w = Some w'
    ∧ selectedFile (state w') = Some file
    ∧ previewUrl (state w') = blobURL (minted w)
    ∧ previewUrl (state w') ≠ ""
    ∧ previewUrl (state w') ∈ objectURLs w'
    ∧ soilResult (state w') = soilResult (state w)
    ∧ cropSuggestions (state w') = cropSuggestions (state w)
    ∧ location (state w') = location (state w)
    ∧ weather (state w') = weather (state w)
    ∧ toasts w' = toasts w ++ [mkToast ToastSuccess "Image uploaded successfully"].
Proof.
  intros Hsel Htype Hsize.
  pose proof (handle_selects e file w Hsel) as Hh.
  destruct (handleFileSelect_accept file (withState (afterRejected e (state w)) w) Htype Hsize)
    as (w1 & Hf & Hfile & Hp & Hs & Hc & Hl & Hwe & Ht & _ & Hu).
  rewrite <- Hh in Hf.
  cbn [withState state minted toasts objectURLs] in Hp, Hs, Hc, Hl, Hwe, Ht, Hu.
  destruct (dispatch_handle e w w1 Hf) as (w' & Hd & Hst & Hto & _ & _ & _ & _ & Hurls).
  assert (soilResult (afterRejected e (state w)) = soilResult (state w)
          ∧ cropSuggestions (afterRejected e (state w)) = cropSuggestions (state w)
          ∧ location (afterRejected e (state w)) = location (state w)
          ∧ weather (afterRejected e (state w)) = weather (state w))
    as (Hf1 & Hf2 & Hf3 & Hf4) by (by destruct e).
  assert (blobURL (minted w) ∈ objectURLs w') as Halive.
  { destruct (Hurls (blobURL (minted w))) as [_ Hback]. apply Hback. split.
    - rewrite Hu. apply elem_of_union_l. by apply elem_of_singleton.
    - rewrite Hp. intros (_ & _ & Hne). by apply Hne. }
  pose proof (blobURL_nonempty (minted w)) as Hnonempty.
  exists w'. rewrite Hst, Hto, Hfile, Hp, Hs, Hc, Hl, Hwe, Ht, Hf1, Hf2, Hf3, Hf4.
  by split_and!.
Qed.

Lemma select_image_keeps_results_witness :
  ∃ w', dispatch (FileInputChange (Some jpeg2MB)) scenarioWorld = Some w'
    ∧ selectedFile (state w') = Some jpeg2MB
    ∧ previewUrl (state w') = blobURL (minted scenarioWorld)
    ∧ previewUrl (state w') ≠ ""
    ∧ previewUrl (state w') ∈ objectURLs w'
    ∧ soilResult (state w') = soilResult (state scenarioWorld)
    ∧ cropSuggestions (state w') = cropSuggestions (state scenarioWorld)
    ∧ location (state w') = location (state scenarioWorld)
    ∧ weather (state w') = weather (state scenarioWorld)
    ∧ toasts w' = toasts scenarioWorld ++ [mkToast ToastSuccess "Image uploaded successfully"].
Proof.
  apply (select_image_keeps_results scenarioWorld (FileInputChange (Some jpeg2MB)) jpeg2MB).
  - constructor.
  - reflexivity.
  - vm_compute. discriminate.
Defined.

(** C1 as stated fails: after the scenario (soil analysed, four crops
    suggested) a second 2 MB JPEG is accepted, and the soil result and the
    suggestions of the first image are still there. *)
Lemma select_image_resets_results_counterexample :
  ¬ (∀ (w w' : World) (file : File.t),
       reachable w →
       startsWith (File.type file) "image/" = true →
       File.size file ≤ 10 * 1024 * 1024 →
       dispatch (FileInputChange (Some file)) w = Some w' →
       selectedFile (state w') = Some file
       ∧ soilResult (state w') = None
       ∧ cropSuggestions (state w') = []).
Proof.
  intros Hclaim.
  destruct (dispatch (FileInputChange (Some jpeg2MB)) scenarioWorld) as [w'|] eqn:Hd;
    [|vm_compute in Hd; discriminate].
  destruct (Hclaim scenarioWorld w' jpeg2MB scenarioWorld_reachable) as (_ & Hnone & _);
    [reflexivity | by vm_compute | exact Hd |].
  vm_compute in Hd. injection Hd as <-. discriminate Hnone.
Qed.

(** ** Rejected transitions *)

(** C2. Every rejected transition (a file that is not an image or is larger
    than 10 MB, by any of the three entry points; a manual location with an
    empty city; weather without a location; analysis without an image; crop
    suggestions without a soil result or without weather) adds exactly one
    error toast with a non-empty message and changes nothing else: no entity,
    no timer, no object URL. The only cell written at all is the drag
    highlight, which a drop resets before the file is looked at. *)
Theorem rejected_transition_leaves_state (w : World) (e : Event) :
  Rejected (state w) e →
  ∃ msg, msg ≠ ""
    ∧ dispatch e w =
        Some (addToast ToastError msg (withState (afterRejected e (state w)) w))
    ∧ entities (afterRejected e (state w)) = entities (state w).
Proof.
  assert (∀ f e0 msg, selects e0 f →
            handleFileSelect f (withState (afterRejected e0 (state w)) w) =
              Some (tt, addToast ToastError msg (withState (afterRejected e0 (state w)) w)) →
            dispatch e0 w =
              Some (addToast ToastError msg (withState (afterRejected e0 (state w)) w))
            ∧ entities (afterRejected e0 (state w)) = entities (state w)) as Hfile.
  { intros f e0 msg Hsel Hh. rewrite <- (handle_selects e0 f w Hsel) in Hh. split.
    - apply dispatch_same_preview; [exact Hh|]. by destruct Hsel.
    - by destruct Hsel. }
  assert (∀ e0 msg, afterRejected e0 (state w) = state w →
            handle e0 (state w) w = Some (tt, addToast ToastError msg w) →
            dispatch e0 w =
              Some (addToast ToastError msg (withState (afterRejected e0 (state w)) w))
            ∧ entities (afterRejected e0 (state w)) = entities (state w)) as Hplain.
  { intros e0 msg Hs Hh. rewrite Hs. split; [|done].
    replace (withState (state w) w) with w by (by destruct w).
    by apply dispatch_same_preview. }
  intros Hrej. inversion Hrej as [e0 f Hsel Htype|e0 f Hsel Hsize|Hcity|Hloc|Hfile0|Hsoil|Hweather]; subst.
  - exists "Please select a valid image file (JPEG or PNG)". split; [done|].
    apply (Hfile f); [done|]. unfold handleFileSelect. by rewrite Htype.
  - destruct (startsWith (File.type f) "image/") eqn:Htype.
    + exists "Image size must be less than 10MB". split; [done|].
      apply (Hfile f); [done|]. unfold handleFileSelect. rewrite Htype.
      assert ((File.size f >? 10 * 1024 * 1024) = true) as ->; [|done].
      rewrite Z.gtb_ltb. by apply Z.ltb_lt.
    + exists "Please select a valid image file (JPEG or PNG)". split; [done|].
      apply (Hfile f); [done|]. unfold handleFileSelect. by rewrite Htype.
  - exists "Please enter a city name". split; [done|].
    apply Hplain; [done|]. cbn [handle]. unfold handleManualLocationSubmit. by rewrite Hcity.
  - exists "Please set location first". split; [done|].
    apply Hplain; [done|]. cbn [handle]. unfold fetchWeather. by rewrite Hloc.
  - exists "Please upload an image first". split; [done|].
    apply Hplain; [done|]. cbn [handle]. unfold analyzeSoil. by rewrite Hfile0.
  - exists "Please analyze soil first". split; [done|].
    apply Hplain; [done|]. cbn [handle]. unfold suggestCrops. by rewrite Hsoil.
  - destruct (soilResult (state w)) eqn:Hsoil.
    + exists "Weather data required for crop suggestions". split; [done|].
      apply Hplain; [done|]. cbn [handle]. unfold suggestCrops. by rewrite Hsoil, Hweather.
    + exists "Please analyze soil first". split; [done|].
      apply Hplain; [done|]. cbn [handle]. unfold suggestCrops. by rewrite Hsoil.
Qed.

Lemma rejected_transition_leaves_state_witness :
  ∃ msg, msg ≠ ""
    ∧ dispatch (DropFiles (Some pdf)) scenarioWorld =
        Some (addToast ToastError msg
                (withState (afterRejected (DropFiles (Some pdf)) (state scenarioWorld))
                   scenarioWorld))
    ∧ entities (afterRejected (DropFiles (Some pdf)) (state scenarioWorld))
      = entities (state scenarioWorld).
Proof.
  apply (rejected_transition_leaves_state scenarioWorld (DropFiles (Some pdf))).
  apply (rejected_type _ _ pdf); [constructor | reflexivity].
Defined.

(** ** Timers *)

(** Firing a pending timer runs its callback in the world without it. *)
Lemma fireTimer_pending (i : nat) (t : Timer) (w : World) :
  timers w !! i = Some t →
  fireTimer i w =
    runCallback (callback t)
      (mkWorld (state w) (toasts w) (take i (timers w) ++ drop (S i) (timers w))
               (objectURLs w) (minted w) (entropy w) (draws w)).
Proof. intros Ht. unfold fireTimer. by rewrite Ht. Qed.

(** The timer a handler has just queued is the last one. *)
Lemma lookup_last_timer (ts : list Timer) (t : Timer) :
  (ts ++ [t]) !! length ts = Some t.
Proof. induction ts as [|t0 ts IH]; [reflexivity | exact IH]. Qed.

(** ** Crop suggestions *)


Lemma suggestCrops_accept (w : World) :
  soilResult (state w) ≠ None →
  weather (state w) ≠ None →
  ∃ w1, dispatch ClickSuggestCrops w = Some w1
    ∧ suggestingCrops (state w1) = true
    ∧ timers w1 = timers w ++ [mkTimer suggestCrops_timeout 2000]
    ∧ cropSuggestions (state w1) = cropSuggestions (state w).
Proof.
  intros Hsoil Hweather.
  destruct (soilResult (state w)) as [soil|] eqn:Es; [|done].
  destruct (weather (state w)) as [wth|] eqn:Ew; [|done].
  eexists. split.
  - apply dispatch_same_preview.
    + cbn [handle]. unfold suggestCrops. rewrite Es, Ew. reflexivity.
    + reflexivity.
  - done.
Qed.


Lemma suggestCrops_callback_spec (w : World) :
  ∃ w2, suggestCrops_callback w = Some (tt, w2)
    ∧ cropSuggestions (state w2) = crops
    ∧ suggestingCrops (state w2) = false
    ∧ previewUrl (state w2) = previewUrl (state w)
    ∧ toasts w2 = toasts w ++ [mkToast ToastSuccess "Found 4 crop suggestions"].
Proof.
  open_world w. unfold suggestCrops_callback. handler_step.
  eexists. split; [reflexivity|]. by handler_step.
Qed.

(** C5. When there are a soil result and weather, asking for crops queues the
    timer; and whenever that timer expires, the suggestion list is replaced by
    a list of exactly four entries, none of them saved. *)
Theorem suggestCrops_four_unsaved (w : World) :
  soilResult (state w) ≠ None →
  weather (state w) ≠ None →
  ∃ w1, dispatch ClickSuggestCrops w = Some w1
    ∧ timers w1 !! length (timers w) = Some (mkTimer suggestCrops_timeout 2000)
    ∧ ∀ (v : World) (i : nat) (ms : Z),
        timers v !! i = Some (mkTimer suggestCrops_timeout ms) →
        ∃ w2, dispatch (TimerFires i) v = Some w2
          ∧ length (cropSuggestions (state w2)) = 4%nat
          ∧ Forall (λ c, CropSuggestion.saved c = false) (cropSuggestions (state w2))
          ∧ suggestingCrops (state w2) = false.
Proof.
  intros Hsoil Hweather.
  destruct (suggestCrops_accept w Hsoil Hweather) as (w1 & Hd & _ & Htm & _).
  exists w1. split_and!; [done | rewrite Htm; apply lookup_last_timer |].
  intros v i ms Hpending.
  pose proof (fireTimer_pending i _ v Hpending) as Hfire. cbn [callback runCallback] in Hfire.
  destruct (suggestCrops_callback_spec
              (mkWorld (state v) (toasts v) (take i (timers v) ++ drop (S i) (timers v))
                       (objectURLs v) (minted v) (entropy v) (draws v)))
    as (w2 & Hcb & Hcrops & Hflag & Hprev & _).
  assert (dispatch (TimerFires i) v = Some w2) as Hd2.
  { apply dispatch_same_preview; [cbn [handle]; by rewrite Hfire | exact Hprev]. }
  exists w2. rewrite Hcrops. split; [exact Hd2|]. split; [reflexivity|].
  split; [|exact Hflag]. unfold crops. repeat constructor.
Qed.

Lemma suggestCrops_four_unsaved_witness :
  ∃ w1, dispatch ClickSuggestCrops scenarioWorld = Some w1
    ∧ timers w1 !! length (timers scenarioWorld) = Some (mkTimer suggestCrops_timeout 2000)
    ∧ ∀ (v : World) (i : nat) (ms : Z),
        timers v !! i = Some (mkTimer suggestCrops_timeout ms) →
        ∃ w2, dispatch (TimerFires i) v = Some w2
          ∧ length (cropSuggestions (state w2)) = 4%nat
          ∧ Forall (λ c, CropSuggestion.saved c = false) (cropSuggestions (state w2))
          ∧ suggestingCrops (state w2) = false.
Proof.
  apply (suggestCrops_four_unsaved scenarioWorld); vm_compute; discriminate.
Defined.

(** ** Binary64 rounding

    [double x] is a binary64 number and no binary64 number is nearer to [x].
    Rounding never crosses a binary64 number: a bound that is itself
    representable survives every rounded operation. *)

Section Binary64.
Local Open Scope Q_scope.

Lemma roundHalfEven_floor (x : Q) :
  (roundHalfEven x = Qfloor x)
  \/ (roundHalfEven x = (Qfloor x + 1)%Z /\ inject_Z (Qfloor x) < x).
Proof.
  unfold roundHalfEven.
  destruct (x - inject_Z (Qfloor x) ?= 1 # 2) eqn:E.
  - apply Qeq_alt in E. destruct (Z.even (Qfloor x)); [by left|]. right. split; [done|]. lra.
  - by left.
  - apply Qgt_alt in E. right. split; [done|]. lra.
Qed.

Lemma roundHalfEven_le (x : Q) (k : Z) : x <= inject_Z k -> (roundHalfEven x <= k)%Z.
Proof.
  intros Hx.
  assert (Qfloor x <= k)%Z as Hf.
  { rewrite <- (Qfloor_Z k). by apply Qfloor_resp_le. }
  destruct (roundHalfEven_floor x) as [-> | [-> Hlt]]; [done|].
  assert (Qfloor x < k)%Z; [|lia].
  rewrite Zlt_Qlt. lra.
Qed.

Lemma roundHalfEven_ge (x : Q) (k : Z) : inject_Z k <= x -> (k <= roundHalfEven x)%Z.
Proof.
  intros Hx.
  assert (k <= Qfloor x)%Z as Hf.
  { rewrite <- (Qfloor_Z k). by apply Qfloor_resp_le. }
  destruct (roundHalfEven_floor x) as [-> | [-> _]]; lia.
Qed.

Lemma two_power_pos (e : Z) : 0 < 2 ^ e.
Proof. by apply Qpower_0_lt. Qed.

Lemma two_power_plus (a b : Z) : 2 ^ (a + b) == 2 ^ a * 2 ^ b.
Proof. by apply Qpower_plus. Qed.

Lemma two_power_Z (a : Z) : (0 <= a)%Z -> inject_Z (2 ^ a) == 2 ^ a.
Proof. intros Ha. by rewrite Zpower_Qpower. Qed.

Lemma two_power_le (a b : Z) : (a <= b)%Z -> 2 ^ a <= 2 ^ b.
Proof.
  intros Hab. replace b with (a + (b - a))%Z by lia.
  rewrite two_power_plus. rewrite <- (Qmult_1_r (2 ^ a)) at 1.
  apply Qmult_le_l; [apply two_power_pos|].
  rewrite <- two_power_Z by lia. change 1 with (inject_Z 1). rewrite <- Zle_Qle.
  assert (0 < 2 ^ (b - a))%Z by (apply Z.pow_pos_nonneg; lia). lia.
Qed.

(** The exponent found is not too large: the grid it selects is at least as
    fine as the number needs. *)
Lemma ilog2_le (x : Q) : 0 < x -> 2 ^ ilog2 x <= x.
Proof.
  intros Hx. unfold ilog2.
  destruct (Qle_bool _ x) eqn:E; [by apply Qle_bool_iff|].
  destruct x as [n d]. cbn [Qnum Qden]. clear E.
  assert (0 < n)%Z as Hn by (unfold Qlt in Hx; cbn in Hx; lia).
  set (a := Z.log2 n). set (b := (Z.log2 (Z.pos d) + 1)%Z).
  assert (0 <= a)%Z as Ha by apply Z.log2_nonneg.
  assert (0 < b)%Z as Hb by (pose proof (Z.log2_nonneg (Z.pos d)); lia).
  assert (2 ^ a <= n)%Z as Han by (apply Z.log2_spec; lia).
  assert (Z.pos d < 2 ^ b)%Z as Hdb.
  { unfold b. rewrite Z.add_1_r. apply Z.log2_spec. lia. }
  replace (a - Z.log2 (Z.pos d) - 1)%Z with (a + - b)%Z by (unfold b; lia).
  rewrite two_power_plus, Qpower_opp, <- !two_power_Z by lia.
  rewrite (Qmake_Qdiv n d).
  assert (0 < inject_Z (2 ^ b)) as Hb'.
  { change 0 with (inject_Z 0). rewrite <- Zlt_Qlt. apply Z.pow_pos_nonneg; lia. }
  assert (0 < inject_Z (Z.pos d)) as Hd'.
  { change 0 with (inject_Z 0). by rewrite <- Zlt_Qlt. }
  apply Qle_shift_div_l; [done|].
  setoid_replace (inject_Z (2 ^ a) * / inject_Z (2 ^ b) * inject_Z (Z.pos d))
    with (inject_Z (2 ^ a) * inject_Z (Z.pos d) / inject_Z (2 ^ b))
    using relation Qeq by (field; lra).
  apply Qle_shift_div_r; [done|].
  rewrite <- !inject_Z_mult, <- Zle_Qle.
  apply Z.mul_le_mono_nonneg; lia.
Qed.

Lemma isDouble_Z (n : Z) : (Z.abs n <= 2 ^ 53)%Z -> isDouble (inject_Z n).
Proof. intros Hn. exists n, 0%Z. split; [lia|]. split; [done|]. cbn. ring. Qed.

(** A binary64 number lies on the grid that [double] uses for [x], or it is no
    larger in magnitude than the least grid point of the binade of [x]. *)
Lemma double_grid (x f : Q) :
  isDouble f ->
  (exists k, f == inject_Z k * 2 ^ ulpExponent x)
  \/ (Qabs f <= inject_Z (2 ^ 52) * 2 ^ ulpExponent x
      /\ (0 < Qabs x -> inject_Z (2 ^ 52) * 2 ^ ulpExponent x <= Qabs x)).
Proof.
  intros (m & q & Hq & Hm & Hf).
  destruct (Z_le_gt_dec (ulpExponent x) q) as [Hle|Hgt].
  - left. exists (m * 2 ^ (q - ulpExponent x))%Z.
    rewrite Hf, inject_Z_mult, two_power_Z by lia.
    rewrite <- Qmult_assoc, <- two_power_plus.
    by replace (q - ulpExponent x + ulpExponent x)%Z with q by lia.
  - right.
    assert (ulpExponent x = ilog2 (Qabs x) - 52)%Z as Hu by (unfold ulpExponent in *; lia).
    assert (inject_Z (2 ^ 52) * 2 ^ ulpExponent x == 2 ^ ilog2 (Qabs x)) as Hgrid.
    { rewrite two_power_Z by lia. rewrite <- two_power_plus.
      by replace (52 + ulpExponent x)%Z with (ilog2 (Qabs x)) by lia. }
    split.
    + assert (Qabs (inject_Z m) == inject_Z (Z.abs m)) as Habs
        by (unfold inject_Z; symmetry; apply Zabs_Qabs).
      rewrite Hf, Qabs_Qmult, Habs.
      rewrite (Qabs_pos (2 ^ q)) by (apply Qlt_le_weak, two_power_pos).
      apply Qle_trans with (inject_Z (2 ^ 53) * 2 ^ q).
      * apply Qmult_le_compat_r; [by rewrite <- Zle_Qle | apply Qlt_le_weak, two_power_pos].
      * rewrite Hgrid, two_power_Z by lia. rewrite <- two_power_plus.
        apply two_power_le. lia.
    + intros Hpos. rewrite Hgrid. by apply ilog2_le.
Qed.

Lemma double_le (x f : Q) : isDouble f -> x <= f -> double x <= f.
Proof.
  intros Hf Hxf. unfold double.
  set (U := 2 ^ ulpExponent x). assert (0 < U) as HU by apply two_power_pos.
  assert (forall k : Z, x <= inject_Z k * U ->
            inject_Z (roundHalfEven (x / U)) * U <= inject_Z k * U) as Hstep.
  { intros k Hk. apply Qmult_le_compat_r; [|lra]. rewrite <- Zle_Qle.
    apply roundHalfEven_le. by apply Qle_shift_div_r. }
  destruct (double_grid x f Hf) as [[k Hk]|[Hsmall Hbig]]; fold U in Hk || fold U in Hsmall, Hbig.
  - rewrite Hk. apply Hstep. by rewrite <- Hk.
  - apply Qabs_Qle_condition in Hsmall as [Hlo Hhi].
    destruct (Qlt_le_dec 0 x) as [Hpos|Hneg].
    + rewrite (Qabs_pos x) in Hbig by lra. specialize (Hbig Hpos).
      apply Qle_trans with (inject_Z (2 ^ 52) * U); [apply Hstep|]; lra.
    + destruct (Qlt_le_dec f 0) as [Hfneg|Hfpos].
      * rewrite (Qabs_neg x) in Hbig by lra. specialize (Hbig ltac:(lra)).
        apply Qle_trans with (inject_Z (- 2 ^ 52) * U).
        -- apply Hstep. rewrite inject_Z_opp. lra.
        -- rewrite inject_Z_opp. lra.
      * apply Qle_trans with (inject_Z 0 * U); [apply Hstep|]; change (inject_Z 0) with 0; lra.
Qed.

Lemma double_ge (x f : Q) : isDouble f -> f <= x -> f <= double x.
Proof.
  intros Hf Hxf. unfold double.
  set (U := 2 ^ ulpExponent x). assert (0 < U) as HU by apply two_power_pos.
  assert (forall k : Z, inject_Z k * U <= x ->
            inject_Z k * U <= inject_Z (roundHalfEven (x / U)) * U) as Hstep.
  { intros k Hk. apply Qmult_le_compat_r; [|lra]. rewrite <- Zle_Qle.
    apply roundHalfEven_ge. by apply Qle_shift_div_l. }
  destruct (double_grid x f Hf) as [[k Hk]|[Hsmall Hbig]]; fold U in Hk || fold U in Hsmall, Hbig.
  - rewrite Hk. apply Hstep. by rewrite <- Hk.
  - apply Qabs_Qle_condition in Hsmall as [Hlo Hhi].
    destruct (Qlt_le_dec x 0) as [Hneg|Hpos].
    + rewrite (Qabs_neg x) in Hbig by lra. specialize (Hbig ltac:(lra)).
      apply Qle_trans with (inject_Z (- 2 ^ 52) * U); [|apply Hstep];
        rewrite inject_Z_opp; lra.
    + destruct (Qlt_le_dec 0 f) as [Hfpos|Hfneg].
      * rewrite (Qabs_pos x) in Hbig by lra. specialize (Hbig ltac:(lra)).
        apply Qle_trans with (inject_Z (2 ^ 52) * U); [|apply Hstep]; lra.
      * apply Qle_trans with (inject_Z 0 * U); [|apply Hstep]; change (inject_Z 0) with 0; lra.
Qed.

(** Rounding stays inside an interval whose ends are binary64 numbers. *)
Lemma double_between (x lo hi : Q) :
  isDouble lo -> isDouble hi -> lo <= x <= hi -> lo <= double x <= hi.
Proof. intros Hlo Hhi [H1 H2]. split; [by apply double_ge | by apply double_le]. Qed.

Lemma ilog2_lt (x : Q) : 0 < x -> x < 2 ^ (ilog2 x + 1).
Proof.
  intros Hx. unfold ilog2.
  destruct (Qle_bool _ x) eqn:E.
  - destruct x as [n d]. cbn [Qnum Qden]. clear E.
    assert (0 < n)%Z as Hn by (unfold Qlt in Hx; cbn in Hx; lia).
    set (a := (Z.log2 n + 1)%Z). set (b := Z.log2 (Z.pos d)).
    assert (0 < a)%Z as Ha by (pose proof (Z.log2_nonneg n); lia).
    assert (0 <= b)%Z as Hb by apply Z.log2_nonneg.
    assert (n < 2 ^ a)%Z as Han.
    { unfold a. rewrite Z.add_1_r. apply Z.log2_spec. lia. }
    assert (2 ^ b <= Z.pos d)%Z as Hdb by (apply Z.log2_spec; lia).
    replace (Z.log2 n - b + 1)%Z with (a + - b)%Z by (unfold a; lia).
    rewrite two_power_plus, Qpower_opp, <- !two_power_Z by lia.
    rewrite (Qmake_Qdiv n d).
    assert (0 < inject_Z (2 ^ b)) as Hb'.
    { change 0 with (inject_Z 0). rewrite <- Zlt_Qlt. apply Z.pow_pos_nonneg; lia. }
    assert (0 < inject_Z (Z.pos d)) as Hd'.
    { change 0 with (inject_Z 0). by rewrite <- Zlt_Qlt. }
    apply Qlt_shift_div_r; [done|].
    setoid_replace (inject_Z (2 ^ a) * / inject_Z (2 ^ b) * inject_Z (Z.pos d))
      with (inject_Z (2 ^ a) * inject_Z (Z.pos d) / inject_Z (2 ^ b))
      using relation Qeq by (field; lra).
    apply Qlt_shift_div_l; [done|].
    rewrite <- !inject_Z_mult, <- Zlt_Qlt.
    apply Z.le_lt_trans with (n * Z.pos d)%Z;
      [apply Z.mul_le_mono_nonneg_l; lia | apply Z.mul_lt_mono_pos_r; lia].
  - replace (Z.log2 (Qnum x) - Z.log2 (Z.pos (Qden x)) - 1 + 1)%Z
      with (Z.log2 (Qnum x) - Z.log2 (Z.pos (Qden x)))%Z by lia.
    apply Qnot_le_lt. intros Hle. apply Qle_bool_iff in Hle. congruence.
Qed.

Lemma roundHalfEven_nearest (y : Q) (k : Z) :
  Qabs (y - inject_Z (roundHalfEven y)) <= Qabs (y - inject_Z k).
Proof.
  pose proof (Qfloor_le y) as Hlo. pose proof (Qlt_floor y) as Hhi.
  rewrite inject_Z_plus in Hhi. change (inject_Z 1) with 1 in Hhi.
  assert (inject_Z k <= inject_Z (Qfloor y) \/ inject_Z (Qfloor y) + 1 <= inject_Z k) as Hk.
  { destruct (Z_le_gt_dec k (Qfloor y)) as [H|H].
    - left. by rewrite <- Zle_Qle.
    - right. rewrite <- (inject_Z_plus _ 1), <- Zle_Qle. lia. }
  unfold roundHalfEven.
  destruct (y - inject_Z (Qfloor y) ?= 1 # 2) eqn:E.
  - apply Qeq_alt in E. destruct (Z.even (Qfloor y));
      rewrite ?inject_Z_plus; change (inject_Z 1) with 1;
      apply Qabs_case; intros; apply Qabs_case; intros; lra.
  - apply Qlt_alt in E.
    apply Qabs_case; intros; apply Qabs_case; intros; lra.
  - apply Qgt_alt in E. rewrite inject_Z_plus. change (inject_Z 1) with 1.
    apply Qabs_case; intros; apply Qabs_case; intros; lra.
Qed.

(** On the grid of [x], nothing is nearer to [x] than its rounding. *)
Lemma double_nearest_grid (x : Q) (k : Z) :
  Qabs (x - double x) <= Qabs (x - inject_Z k * 2 ^ ulpExponent x).
Proof.
  unfold double. set (U := 2 ^ ulpExponent x).
  assert (0 < U) as HU by apply two_power_pos.
  assert (forall n : Z, x - inject_Z n * U == (x / U - inject_Z n) * U) as Hn
    by (intros n; field; lra).
  rewrite !Hn, !Qabs_Qmult. apply Qmult_le_compat_r; [apply roundHalfEven_nearest|].
  apply Qabs_nonneg.
Qed.

(** [double x] is a binary64 number. *)
Lemma isDouble_double (x : Q) : isDouble (double x).
Proof.
  exists (roundHalfEven (x / 2 ^ ulpExponent x)), (ulpExponent x).
  split; [unfold ulpExponent; lia|]. split; [|reflexivity].
  set (U := 2 ^ ulpExponent x). assert (0 < U) as HU by apply two_power_pos.
  assert (Qabs x <= inject_Z (2 ^ 53) * U) as Hx.
  { destruct (Qeq_dec x 0) as [H0|H0].
    - rewrite H0. cbn [Qabs Z.abs Qnum Qden]. apply Qmult_le_0_compat; [done | lra].
    - assert (0 < Qabs x) as Hpos.
      { destruct (Qlt_le_dec 0 (Qabs x)) as [H|H]; [done|].
        exfalso. apply H0. apply Qabs_Qle_condition in H. lra. }
      apply Qlt_le_weak. eapply Qlt_le_trans; [apply (ilog2_lt _ Hpos)|].
      rewrite two_power_Z by lia. unfold U. rewrite <- two_power_plus.
      apply two_power_le. unfold ulpExponent. lia. }
  apply Qabs_Qle_condition in Hx as [Hlo Hhi].
  apply Z.abs_le. split.
  - apply roundHalfEven_ge. apply Qle_shift_div_l; [done|].
    rewrite inject_Z_opp. lra.
  - apply roundHalfEven_le. by apply Qle_shift_div_r.
Qed.

(** No binary64 number is nearer to [x] than [double x]. *)
Lemma double_nearest (x f : Q) :
  isDouble f -> Qabs (x - double x) <= Qabs (x - f).
Proof.
  intros Hf.
  destruct (double_grid x f Hf) as [[k Hk]|[Hsmall Hbig]].
  - rewrite Hk. apply double_nearest_grid.
  - apply Qabs_Qle_condition in Hsmall as [Hlo Hhi].
    destruct (Qlt_le_dec 0 x) as [Hpos|Hneg].
    + rewrite (Qabs_pos x) in Hbig by lra. specialize (Hbig Hpos).
      eapply Qle_trans; [apply (double_nearest_grid x (2 ^ 52))|].
      apply Qabs_case; intros; apply Qabs_case; intros; lra.
    + destruct (Qlt_le_dec x 0) as [Hlt|Hge].
      * rewrite (Qabs_neg x) in Hbig by lra. specialize (Hbig ltac:(lra)).
        eapply Qle_trans; [apply (double_nearest_grid x (- 2 ^ 52))|].
        rewrite inject_Z_opp.
        apply Qabs_case; intros; apply Qabs_case; intros; lra.
      * eapply Qle_trans; [apply (double_nearest_grid x 0)|].
        change (inject_Z 0) with 0.
        apply Qabs_case; intros; apply Qabs_case; intros; lra.
Qed.

(** A binary64 number is its own rounding. *)
Lemma double_fixed (f : Q) : isDouble f -> double f == f.
Proof.
  intros Hf. apply Qle_antisym; [apply double_le | apply double_ge]; by try apply Qle_refl.
Qed.

Lemma Math_round_between (x : Q) (a b : Z) :
  inject_Z a <= x <= inject_Z b -> (a <= Math_round x <= b)%Z.
Proof.
  intros [Ha Hb]. unfold Math_round.
  assert (a <= Qfloor (x + (1 # 2)))%Z as Hlo.
  { rewrite <- (Qfloor_Z a). apply Qfloor_resp_le. lra. }
  assert (Qfloor (x + (1 # 2)) < b + 1)%Z as Hhi; [|lia].
  rewrite Zlt_Qlt. eapply Qle_lt_trans; [apply Qfloor_le|].
  rewrite inject_Z_plus. change (inject_Z 1) with 1. lra.
Qed.

(** [Math.random() * k] *)
Lemma Number_mul_unit (r : Q) (k : Z) :
  (0 <= k <= 2 ^ 53)%Z -> 0 <= r -> r < 1 ->
  0 <= Number_mul r (inject_Z k) <= inject_Z k.
Proof.
  intros Hk H0 H1. unfold Number_mul.
  assert (0 <= inject_Z k) as Hk'.
  { change 0 with (inject_Z 0). rewrite <- Zle_Qle. lia. }
  apply (double_between _ (inject_Z 0) (inject_Z k)).
  - apply isDouble_Z. cbn. lia.
  - apply isDouble_Z. lia.
  - change (inject_Z 0) with 0. split; [by apply Qmult_le_0_compat|].
    rewrite <- (Qmult_1_l (inject_Z k)) at 2.
    apply Qmult_le_compat_r; [by apply Qlt_le_weak | done].
Qed.

(** [a + y] for [y] between 0 and [k] *)
Lemma Number_add_between (a k : Z) (y : Q) :
  (Z.abs a <= 2 ^ 53)%Z -> (Z.abs (a + k) <= 2 ^ 53)%Z ->
  0 <= y <= inject_Z k ->
  inject_Z a <= Number_add (inject_Z a) y <= inject_Z (a + k).
Proof.
  intros Ha Hak [H0 H1]. unfold Number_add.
  apply double_between; [by apply isDouble_Z | by apply isDouble_Z |].
  rewrite inject_Z_plus. lra.
Qed.

(** [Math.round(a + Math.random() * k)] *)
Lemma Math_round_affine (a k : Z) (r : Q) :
  (0 <= k <= 2 ^ 53)%Z -> (Z.abs a <= 2 ^ 53)%Z -> (Z.abs (a + k) <= 2 ^ 53)%Z ->
  0 <= r -> r < 1 ->
  (a <= Math_round (Number_add (inject_Z a) (Number_mul r (inject_Z k))) <= a + k)%Z.
Proof.
  intros Hk Ha Hak H0 H1. apply Math_round_between.
  apply Number_add_between; [done | done |]. by apply Number_mul_unit.
Qed.

(** A coordinate of the manual location: [c + (Math.random() - 0.5) * 10]. *)
Lemma manual_coordinate (c lo hi r : Q) :
  isDouble lo -> isDouble hi -> lo == c - 5 -> hi == c + 5 ->
  0 <= r -> r < 1 ->
  lo <= Number_add c (Number_mul (Number_sub r (1 # 2)) 10) <= hi.
Proof.
  intros Hlo Hhi Elo Ehi H0 H1.
  assert (- (1 # 2) <= Number_sub r (1 # 2) <= 1 # 2) as [Ha Hb].
  { unfold Number_sub. apply double_between.
    - exists (-1)%Z, (-1)%Z. split; [lia|]. split; [done|]. reflexivity.
    - exists 1%Z, (-1)%Z. split; [lia|]. split; [done|]. reflexivity.
    - lra. }
  assert (- (5) <= Number_mul (Number_sub r (1 # 2)) 10 <= 5) as [Hc Hd].
  { unfold Number_mul.
    apply (double_between _ (inject_Z (-5)) (inject_Z 5));
      [by apply isDouble_Z | by apply isDouble_Z |].
    change (inject_Z (-5)) with (- (5)). change (inject_Z 5) with 5. lra. }
  unfold Number_add. apply double_between; [done | done |].
  rewrite Elo, Ehi. lra.
Qed.

End Binary64.

(** The rounding is visible: with these two draws the exact values
    75 + 20 r = 75.4999... and 10 r = 1.4999... would round to 75 and to 1,
    the binary64 sum and product are 75.5 and 1.5 and round to 76 and to 2. *)
Example confidence_rounds_up :
  Math_round (Number_add 75 (Number_mul (7205759403792793 # 288230376151711744) 20)) = 76
  ∧ Math_round (75 + (7205759403792793 # 288230376151711744) * 20) = 75.
Proof. by vm_compute. Qed.

Example precipitation_rounds_up :
  Math_round (Number_mul (5404319552844595 # 36028797018963968) 10) = 2
  ∧ Math_round ((5404319552844595 # 36028797018963968) * 10) = 1.
Proof. by vm_compute. Qed.

(** The literals of the manual location, as binary64 numbers; and two ties,
    which go to the even significand. *)
Example double_literals :
  (double (407128 # 10000) == 2864908607956399 # 70368744177664)%Q
  ∧ (double (740060 # 10000) == 2603854640806101 # 35184372088832)%Q
  ∧ (double (1 # 10) == 3602879701896397 # 36028797018963968)%Q
  ∧ (double 9007199254740993 == 9007199254740992)%Q
  ∧ (double 9007199254740995 == 9007199254740996)%Q.
Proof. by vm_compute. Qed.

(** ** Soil analysis *)

Lemma Qfloor_bounds (x : Q) (a b : Z) :
  (inject_Z a <= x)%Q → (x < inject_Z b)%Q → a ≤ Qfloor x < b.
Proof.
  intros Ha Hb. split.
  - rewrite <- (Qfloor_Z a). by apply Qfloor_resp_le.
  - rewrite Zlt_Qlt. eapply Qle_lt_trans; [apply Qfloor_le | exact Hb].
Qed.

(** [Math.floor(Math.random() * 4)] is an index of a four-element array. *)
Lemma random_index_4 (r : Q) :
  (0 <= r)%Q → (r < 1)%Q → 0 ≤ Math_floor (r * inject_Z 4) < 4.
Proof.
  intros H0 H1. apply Qfloor_bounds; unfold inject_Z; lra.
Qed.

(** [Math.round(75 + Math.random() * 20)] lies in [75, 95]. *)
Lemma random_confidence (r : Q) :
  (0 <= r)%Q → (r < 1)%Q → 75 ≤ Math_round (Number_add 75 (Number_mul r 20)) ≤ 95.
Proof.
  intros H0 H1. by apply (Math_round_affine 75 20).
Qed.

(** An index inside the array finds its element and throws nothing. *)
Lemma index_in_range {A} (xs : list A) (i : Z) :
  0 ≤ i < Z.of_nat (length xs) →
  ∃ x, xs !! Z.to_nat i = Some x ∧ ∀ w, index xs i w = Some (x, w).
Proof.
  intros [Hlo Hhi]. unfold index.
  destruct (i <? 0) eqn:E; [apply Z.ltb_lt in E; lia|].
  destruct (xs !! Z.to_nat i) as [x|] eqn:Ex.
  - by exists x.
  - apply lookup_ge_None in Ex. lia.
Qed.

Lemma soilTypes_names (i : nat) (ty co de : string) :
  soilTypes !! i = Some (ty, co, de) → ty ∈ soilTypeNames.
Proof.
  intros Hi. apply list_elem_of_In. unfold soilTypeNames.
  do 4 (destruct i as [|i]; [injection Hi as <- _ _; simpl; tauto|]).
  discriminate Hi.
Qed.

Lemma analyzeSoil_callback_spec (w : World) :
  unitInterval (entropy w) →
  ∃ w2 res, analyzeSoil_callback w = Some (tt, w2)
    ∧ soilResult (state w2) = Some res
    ∧ SoilResult.type res ∈ soilTypeNames
    ∧ 75 ≤ SoilResult.confidence res ≤ 95
    ∧ analyzing (state w2) = false
    ∧ previewUrl (state w2) = previewUrl (state w)
    ∧ selectedFile (state w2) = selectedFile (state w)
    ∧ entropy w2 = entropy w.
Proof.
  intros Hrnd. destruct w as [s ts tm urls mn rnd d]. destruct s.
  cbn [entropy state previewUrl selectedFile] in *.
  destruct (Hrnd d) as [H0 H1].
  destruct (Hrnd (S d)) as [H0' H1'].
  pose proof (random_confidence _ H0' H1') as Hconf.
  destruct (index_in_range soilTypes (Math_floor (rnd d * inject_Z 4)))
    as ([[ty co] de] & Hlk & Hix); [apply (random_index_4 _ H0 H1)|].
  apply soilTypes_names in Hlk.
  unfold analyzeSoil_callback, mbind, Handler_bind, Math_random.
  cbn [state toasts timers objectURLs minted entropy draws length soilTypes].
  change (inject_Z (Z.of_nat 4)) with (inject_Z 4). rewrite Hix.
  handler_step. do 2 eexists. split; [reflexivity|]. by handler_step.
Qed.

Lemma analyzeSoil_accept (w : World) :
  selectedFile (state w) ≠ None →
  ∃ w1, dispatch ClickAnalyzeSoil w = Some w1
    ∧ analyzing (state w1) = true
    ∧ soilResult (state w1) = soilResult (state w)
    ∧ entropy w1 = entropy w
    ∧ timers w1 = timers w ++ [mkTimer analyzeSoil_timeout 3000].
Proof.
  intros Hfile. destruct (selectedFile (state w)) as [file|] eqn:Ef; [|done].
  eexists. split.
  - apply dispatch_same_preview.
    + cbn [handle]. unfold analyzeSoil. rewrite Ef. reflexivity.
    + reflexivity.
  - done.
Qed.

(** C8. Without an image the analysis is rejected. With an image it raises
    the analysing flag and queues the three-second timer; and whenever that
    timer expires (the random draws lying in [0, 1)), the soil result is
    present, its type is one of Clay Loam, Sandy Loam, Silt Loam and Clay, and
    its confidence is an integer between 75 and 95. *)
Theorem analyzeSoil_type_and_confidence (w : World) :
  unitInterval (entropy w) →
  (selectedFile (state w) = None →
     dispatch ClickAnalyzeSoil w =
       Some (addToast ToastError "Please upload an image first" w))
  ∧ (selectedFile (state w) ≠ None →
     ∃ w1, dispatch ClickAnalyzeSoil w = Some w1
       ∧ analyzing (state w1) = true
       ∧ unitInterval (entropy w1)
       ∧ timers w1 !! length (timers w) = Some (mkTimer analyzeSoil_timeout 3000))
  ∧ (∀ (v : World) (i : nat) (ms : Z),
       unitInterval (entropy v) →
       timers v !! i = Some (mkTimer analyzeSoil_timeout ms) →
       ∃ w2 res, dispatch (TimerFires i) v = Some w2
         ∧ soilResult (state w2) = Some res
         ∧ SoilResult.type res ∈ soilTypeNames
         ∧ 75 ≤ SoilResult.confidence res ≤ 95
         ∧ analyzing (state w2) = false).
Proof.
  intros Hrnd. split; [|split].
  - intros Hnone. apply dispatch_same_preview; [|done].
    cbn [handle]. unfold analyzeSoil. by rewrite Hnone.
  - intros Hfile.
    destruct (analyzeSoil_accept w Hfile) as (w1 & Hd & Hflag & _ & He & Htm).
    exists w1. rewrite He, Htm.
    pose proof (lookup_last_timer (timers w) (mkTimer analyzeSoil_timeout 3000)).
    by split_and!.
  - intros v i ms Hv Hpending.
    pose proof (fireTimer_pending i _ v Hpending) as Hfire.
    cbn [callback runCallback] in Hfire.
    destruct (analyzeSoil_callback_spec
                (mkWorld (state v) (toasts v) (take i (timers v) ++ drop (S i) (timers v))
                         (objectURLs v) (minted v) (entropy v) (draws v)) Hv)
      as (w2 & res & Hcb & Hres & Hty & Hconf & Hflag & Hprev & _ & _).
    assert (dispatch (TimerFires i) v = Some w2) as Hd.
    { apply dispatch_same_preview; [cbn [handle]; by rewrite Hfire | exact Hprev]. }
    exists w2, res. split_and!; try done; lia.
Qed.

Lemma analyzeSoil_type_and_confidence_witness :
  (selectedFile (state scenarioWorld) = None →
     dispatch ClickAnalyzeSoil scenarioWorld =
       Some (addToast ToastError "Please upload an image first" scenarioWorld))
  ∧ (selectedFile (state scenarioWorld) ≠ None →
     ∃ w1, dispatch ClickAnalyzeSoil scenarioWorld = Some w1
       ∧ analyzing (state w1) = true
       ∧ unitInterval (entropy w1)
       ∧ timers w1 !! length (timers scenarioWorld) =
           Some (mkTimer analyzeSoil_timeout 3000))
  ∧ (∀ (v : World) (i : nat) (ms : Z),
       unitInterval (entropy v) →
       timers v !! i = Some (mkTimer analyzeSoil_timeout ms) →
       ∃ w2 res, dispatch (TimerFires i) v = Some w2
         ∧ soilResult (state w2) = Some res
         ∧ SoilResult.type res ∈ soilTypeNames
         ∧ 75 ≤ SoilResult.confidence res ≤ 95
         ∧ analyzing (state w2) = false).
Proof.
  apply (analyzeSoil_type_and_confidence scenarioWorld).
  intros n. vm_compute. split; [discriminate | reflexivity].
Defined.

(** ** Saving a crop *)

Lemma toggleSaved_involutive (cropName : string) (c : CropSuggestion.t) :
  toggleSaved cropName (toggleSaved cropName c) = c.
Proof.
  destruct c as [n su se re de sa]. unfold toggleSaved. cbn.
  destruct (String.eqb n cropName) eqn:E; cbn; rewrite ?E; [|done].
  by rewrite negb_involutive.
Qed.

Lemma toggleSaved_fields (cropName : string) (c : CropSuggestion.t) :
  CropSuggestion.name (toggleSaved cropName c) = CropSuggestion.name c
  ∧ CropSuggestion.suitability (toggleSaved cropName c) = CropSuggestion.suitability c
  ∧ CropSuggestion.season (toggleSaved cropName c) = CropSuggestion.season c
  ∧ CropSuggestion.reason (toggleSaved cropName c) = CropSuggestion.reason c
  ∧ CropSuggestion.details (toggleSaved cropName c) = CropSuggestion.details c
  ∧ CropSuggestion.saved (toggleSaved cropName c) =
      (if String.eqb (CropSuggestion.name c) cropName
       then negb (CropSuggestion.saved c) else CropSuggestion.saved c).
Proof. unfold toggleSaved. by destruct (String.eqb (CropSuggestion.name c) cropName). Qed.

Lemma map_toggleSaved_involutive (cropName : string) (l : list CropSuggestion.t) :
  map (toggleSaved cropName) (map (toggleSaved cropName) l) = l.
Proof.
  induction l as [|c l IH]; [done|].
  cbn [map]. by rewrite toggleSaved_involutive, IH.
Qed.

Lemma map_toggleSaved_absent (cropName : string) (l : list CropSuggestion.t) :
  cropName ∉ map CropSuggestion.name l → map (toggleSaved cropName) l = l.
Proof.
  induction l as [|c l IH]; [done|].
  cbn [map]. intros Hnot. apply not_elem_of_cons in Hnot as [Hne Hnot].
  rewrite (IH Hnot). f_equal. unfold toggleSaved.
  destruct (String.eqb (CropSuggestion.name c) cropName) eqn:E; [|done].
  apply String.eqb_eq in E. congruence.
Qed.

Lemma find_absent (cropName : string) (l : list CropSuggestion.t) :
  cropName ∉ map CropSuggestion.name l →
  List.find (λ c, String.eqb (CropSuggestion.name c) cropName) l = None.
Proof.
  induction l as [|c l IH]; [done|].
  cbn [map List.find]. intros Hnot. apply not_elem_of_cons in Hnot as [Hne Hnot].
  destruct (String.eqb (CropSuggestion.name c) cropName) eqn:E; [|by apply IH].
  apply String.eqb_eq in E. congruence.
Qed.

Lemma withCropSuggestions_twice (l1 l2 : list CropSuggestion.t) (s : State) :
  withCropSuggestions l2 (withCropSuggestions l1 s) = withCropSuggestions l2 s.
Proof. reflexivity. Qed.

Lemma withCropSuggestions_same (s : State) :
  withCropSuggestions (cropSuggestions s) s = s.
Proof. by destruct s. Qed.

(** One click on the bookmark: the list is mapped, a toast may follow. *)
Lemma toggleCropSaved_dispatch (w : World) (cropName : string) :
  ∃ ts, dispatch (ClickToggleCropSaved cropName) w =
      Some (mkWorld
              (withCropSuggestions
                 (map (toggleSaved cropName) (cropSuggestions (state w))) (state w))
              (toasts w ++ ts) (timers w) (objectURLs w) (minted w) (entropy w) (draws w))
    ∧ (cropName ∉ map CropSuggestion.name (cropSuggestions (state w)) → ts = []).
Proof.
  destruct (List.find (λ c, String.eqb (CropSuggestion.name c) cropName)
              (cropSuggestions (state w))) as [crop|] eqn:Ef.
  - eexists [_]. split.
    + apply dispatch_same_preview; [|reflexivity].
      cbn [handle]. unfold toggleCropSaved. rewrite Ef. reflexivity.
    + intros Hnot. apply find_absent in Hnot. congruence.
  - exists []. split; [|done].
    apply dispatch_same_preview; [|reflexivity].
    cbn [handle]. unfold toggleCropSaved. rewrite Ef, app_nil_r.
    by destruct w.
Qed.

(** C6. For a crop name that occurs in the suggestion list, two clicks on its
    bookmark give back the original state; one click changes no cell but the
    suggestion list, keeps its length, leaves every entry with another name as
    it is, and in the entries carrying the name changes the saved flag only
    (negating it). *)
Theorem toggleCropSaved_twice_and_local (w : World) (cropName : string) :
  cropName ∈ map CropSuggestion.name (cropSuggestions (state w)) →
  ∃ w1 w2,
    dispatch (ClickToggleCropSaved cropName) w = Some w1
    ∧ dispatch (ClickToggleCropSaved cropName) w1 = Some w2
    ∧ state w2 = state w
    ∧ withCropSuggestions (cropSuggestions (state w)) (state w1) = state w
    ∧ length (cropSuggestions (state w1)) = length (cropSuggestions (state w))
    ∧ (∀ (i : nat) (c : CropSuggestion.t),
         cropSuggestions (state w) !! i = Some c →
         ∃ c', cropSuggestions (state w1) !! i = Some c'
           ∧ CropSuggestion.name c' = CropSuggestion.name c
           ∧ CropSuggestion.suitability c' = CropSuggestion.suitability c
           ∧ CropSuggestion.season c' = CropSuggestion.season c
           ∧ CropSuggestion.reason c' = CropSuggestion.reason c
           ∧ CropSuggestion.details c' = CropSuggestion.details c
           ∧ CropSuggestion.saved c' =
               (if String.eqb (CropSuggestion.name c) cropName
                then negb (CropSuggestion.saved c) else CropSuggestion.saved c)
           ∧ (CropSuggestion.name c ≠ cropName → c' = c))
    ∧ (∃ (i : nat) (c c' : CropSuggestion.t),
         cropSuggestions (state w) !! i = Some c
         ∧ cropSuggestions (state w1) !! i = Some c'
         ∧ CropSuggestion.name c = cropName
         ∧ CropSuggestion.saved c' = negb (CropSuggestion.saved c)).
Proof.
  intros Hin.
  destruct (toggleCropSaved_dispatch w cropName) as (ts1 & Hd1 & _).
  eexists. destruct (toggleCropSaved_dispatch
             (mkWorld
                (withCropSuggestions
                   (map (toggleSaved cropName) (cropSuggestions (state w))) (state w))
                (toasts w ++ ts1) (timers w) (objectURLs w) (minted w) (entropy w) (draws w))
             cropName) as (ts2 & Hd2 & _).
  eexists. split; [exact Hd1|]. split; [exact Hd2|].
  cbn [state].
  change (cropSuggestions (withCropSuggestions ?l _)) with l.
  rewrite !withCropSuggestions_twice.
  assert (∀ (i : nat) (c : CropSuggestion.t),
            cropSuggestions (state w) !! i = Some c →
            map (toggleSaved cropName) (cropSuggestions (state w)) !! i
              = Some (toggleSaved cropName c)) as Hlookup.
  { intros i c Hi. change (map (toggleSaved cropName)) with (fmap (M:=list) (toggleSaved cropName)).
    by rewrite list_lookup_fmap, Hi. }
  split_and!.
  - rewrite map_toggleSaved_involutive. apply withCropSuggestions_same.
  - apply withCropSuggestions_same.
  - apply length_map.
  - intros i c Hi. exists (toggleSaved cropName c).
    destruct (toggleSaved_fields cropName c) as (H1 & H2 & H3 & H4 & H5 & H6).
    split_and!; try done; [by apply Hlookup|].
    intros Hne. unfold toggleSaved.
    destruct (String.eqb (CropSuggestion.name c) cropName) eqn:E; [|done].
    apply String.eqb_eq in E. congruence.
  - apply list_elem_of_fmap in Hin as (c & Hname & Hc).
    apply list_elem_of_lookup in Hc as [i Hi].
    exists i, c, (toggleSaved cropName c). split_and!; try done; [by apply Hlookup|].
    destruct (toggleSaved_fields cropName c) as (_ & _ & _ & _ & _ & ->).
    by rewrite <- Hname, String.eqb_refl.
Qed.

Lemma toggleCropSaved_twice_and_local_witness :
  ∃ w1 w2,
    dispatch (ClickToggleCropSaved "Carrots") scenarioWorld = Some w1
    ∧ dispatch (ClickToggleCropSaved "Carrots") w1 = Some w2
    ∧ state w2 = state scenarioWorld
    ∧ withCropSuggestions (cropSuggestions (state scenarioWorld)) (state w1)
      = state scenarioWorld
    ∧ length (cropSuggestions (state w1)) = length (cropSuggestions (state scenarioWorld))
    ∧ (∀ (i : nat) (c : CropSuggestion.t),
         cropSuggestions (state scenarioWorld) !! i = Some c →
         ∃ c', cropSuggestions (state w1) !! i = Some c'
           ∧ CropSuggestion.name c' = CropSuggestion.name c
           ∧ CropSuggestion.suitability c' = CropSuggestion.suitability c
           ∧ CropSuggestion.season c' = CropSuggestion.season c
           ∧ CropSuggestion.reason c' = CropSuggestion.reason c
           ∧ CropSuggestion.details c' = CropSuggestion.details c
           ∧ CropSuggestion.saved c' =
               (if String.eqb (CropSuggestion.name c) "Carrots"
                then negb (CropSuggestion.saved c) else CropSuggestion.saved c)
           ∧ (CropSuggestion.name c ≠ "Carrots" → c' = c))
    ∧ (∃ (i : nat) (c c' : CropSuggestion.t),
         cropSuggestions (state scenarioWorld) !! i = Some c
         ∧ cropSuggestions (state w1) !! i = Some c'
         ∧ CropSuggestion.name c = "Carrots"
         ∧ CropSuggestion.saved c' = negb (CropSuggestion.saved c)).
Proof.
  apply (toggleCropSaved_twice_and_local scenarioWorld "Carrots").
  vm_compute. apply list_elem_of_In. simpl. tauto.
Defined.

(** C10. A click that names a crop which is not in the suggestion list changes
    nothing at all: the list, the rest of the state, the toasts, the timers and
    the URL store are as before. *)
Theorem toggleCropSaved_absent_is_noop (w : World) (cropName : string) :
  cropName ∉ map CropSuggestion.name (cropSuggestions (state w)) →
  dispatch (ClickToggleCropSaved cropName) w = Some w.
Proof.
  intros Hnot.
  destruct (toggleCropSaved_dispatch w cropName) as (ts & Hd & Hts).
  rewrite Hd, (Hts Hnot), app_nil_r, (map_toggleSaved_absent _ _ Hnot).
  by rewrite withCropSuggestions_same, world_eta.
Qed.

Lemma toggleCropSaved_absent_is_noop_witness :
  dispatch (ClickToggleCropSaved "Wheat") scenarioWorld = Some scenarioWorld.
Proof.
  apply (toggleCropSaved_absent_is_noop scenarioWorld "Wheat").
  vm_compute. intros Hin. apply list_elem_of_In in Hin. simpl in Hin.
  repeat (destruct Hin as [Hin|Hin]; [discriminate Hin|]). exact Hin.
Defined.

(** ** The settings dialog *)

Lemma last_cons_default {A} (x : A) (l : list A) (d d' : A) :
  List.last (x :: l) d = List.last (x :: l) d'.
Proof.
  revert x. induction l as [|y l IH]; intros x; [reflexivity|].
  change (List.last (y :: l) d = List.last (y :: l) d'). apply IH.
Qed.

Lemma switchAll_weatherAlerts (bs : list bool) (s : Header.State) :
  Header.weatherAlerts (Header.switchAll bs s) = List.last bs (Header.weatherAlerts s).
Proof.
  revert s. induction bs as [|b bs IH]; intros s; [reflexivity|].
  cbn [Header.switchAll]. rewrite IH. destruct bs as [|b0 bs]; [reflexivity|].
  change (List.last (b :: b0 :: bs) (Header.weatherAlerts s))
    with (List.last (b0 :: bs) (Header.weatherAlerts s)).
  apply last_cons_default.
Qed.

(** C9. Cancel closes the dialog and writes no other cell: after opening the
    dialog, flipping the switch any number of times and cancelling, the dialog
    is closed, the weather-alerts value is the last one switched to (the value
    before the dialog when the switch was not touched), and every other cell
    is as it was. In particular one flip to [b] followed by Cancel leaves [b],
    not the value from before the dialog. *)
Theorem settings_cancel_keeps_toggle (s : Header.State) (bs : list bool) :
  let edited := Header.switchAll bs (Header.openSettings s) in
  let closed := Header.cancelSettings edited in
  Header.isSettingsOpen closed = false
  ∧ Header.weatherAlerts closed = List.last bs (Header.weatherAlerts s)
  ∧ Header.weatherAlerts closed = Header.weatherAlerts edited
  ∧ Header.searchValue closed = Header.searchValue edited
  ∧ Header.notifications closed = Header.notifications edited
  ∧ Header.isNotificationsOpen closed = Header.isNotificationsOpen edited
  ∧ Header.isMobile closed = Header.isMobile edited
  ∧ (∀ b : bool,
       Header.weatherAlerts
         (Header.cancelSettings (Header.onCheckedChange b (Header.openSettings s))) = b)
  ∧ Header.weatherAlerts
      (Header.cancelSettings
         (Header.onCheckedChange (negb (Header.weatherAlerts s)) (Header.openSettings s)))
    ≠ Header.weatherAlerts s.
Proof.
  cbn zeta. split_and!; try reflexivity.
  - unfold Header.cancelSettings, Header.setIsSettingsOpen. cbn.
    by rewrite switchAll_weatherAlerts.
  - cbn. by destruct (Header.weatherAlerts s).
Qed.

(** ** The session never fails *)

Lemma runCallback_total (cb : Callback) (w : World) :
  unitInterval (entropy w) →
  ∃ w1, runCallback cb w = Some (tt, w1) ∧ entropy w1 = entropy w.
Proof.
  intros Hrnd. destruct cb; cbn [runCallback].
  - destruct w as [s ts tm urls mn rnd d]. destruct s. cbn [entropy] in *.
    destruct (Hrnd (S (S (S d)))) as [H0 H1].
    destruct (index_in_range weatherDescriptions (Math_floor (rnd (S (S (S d))) * inject_Z 4)))
      as (x & _ & Hix); [apply (random_index_4 _ H0 H1)|].
    unfold fetchWeather_callback, mbind, Handler_bind, Math_random.
    cbn [state toasts timers objectURLs minted entropy draws].
    change (4%Q) with (inject_Z 4). rewrite Hix.
    handler_step. eexists. split; reflexivity.
  - destruct (analyzeSoil_callback_spec w Hrnd) as (w2 & res & Hcb & Hrest).
    exists w2. split; [exact Hcb|]. apply Hrest.
  - open_world w. unfold suggestCrops_callback. handler_step. eexists. split; reflexivity.
Qed.

(** Every handler returns, and none replaces the random stream. *)
Lemma handle_total (e : Event) (r : State) (w : World) :
  unitInterval (entropy w) →
  ∃ w1, handle e r w = Some (tt, w1) ∧ entropy w1 = entropy w.
Proof.
  intros Hrnd.
  destruct e; cbn [handle];
    try (open_world w; open_state r;
         unfold handleFileInputChange, handleDrop, captureFromCamera, handleFileSelect,
           clearImage, handleManualLocationSubmit, confirmMapLocation, fetchWeather,
           analyzeSoil, suggestCrops, toggleCropSaved, toggleCropComparison, resetAll,
           clearImage;
         repeat case_match; handler_step; eexists; split; reflexivity).
  unfold fireTimer. destruct (timers w !! i) as [t|]; [|by exists w].
  apply (runCallback_total (callback t)
           (mkWorld (state w) (toasts w) (take i (timers w) ++ drop (S i) (timers w))
                    (objectURLs w) (minted w) (entropy w) (draws w))).
  exact Hrnd.
Qed.

Lemma dispatch_total (e : Event) (w : World) :
  unitInterval (entropy w) →
  ∃ w', dispatch e w = Some w' ∧ entropy w' = entropy w.
Proof.
  intros Hrnd. destruct (handle_total e (state w) w Hrnd) as (w1 & Hh & He).
  destruct (dispatch_handle e w w1 Hh) as (w' & Hd & _ & _ & _ & _ & He' & _).
  exists w'. split; [done | congruence].
Qed.

Lemma run_total (es : list Event) (w : World) :
  unitInterval (entropy w) →
  ∃ w', run es w = Some w' ∧ entropy w' = entropy w.
Proof.
  revert w. induction es as [|e es IH]; intros w Hrnd; [by exists w|].
  destruct (dispatch_total e w Hrnd) as (w1 & Hd & He).
  cbn [run]. rewrite Hd.
  destruct (IH w1) as (w' & Hr & He'); [by rewrite He|].
  exists w'. split; [done | congruence].
Qed.

Lemma reachable_unitInterval (w : World) : reachable w → unitInterval (entropy w).
Proof.
  intros (rnd & es & Hrnd & Hrun).
  destruct (run_total es (initialWorld rnd) Hrnd) as (w' & Hr & He).
  rewrite Hrun in Hr. injection Hr as <-. by rewrite He.
Qed.

(** ** Notifications of the header *)






Lemma clickAll_unread (ids : list string) (s : Header.State) :
  Forall (λ n, Header.read n = true ∨ Header.id n ∈ ids) (Header.notifications s) →
  Header.unreadCount (Header.clickAll ids s) = 0%nat.
Proof.
  revert s. induction ids as [|i ids IH]; intros s Hall.
  - cbn [Header.clickAll]. unfold Header.unreadCount.
    induction Hall as [|n l [Hr|Hin] _ IHl]; [done| |by apply not_elem_of_nil in Hin].
    cbn [List.filter]. by rewrite Hr.
  - cbn [Header.clickAll]. apply IH.
    unfold Header.handleNotificationClick, Header.setNotifications.
    cbn [Header.notifications].
    induction Hall as [|n l Hn _ IHl]; cbn [map]; constructor; [|exact IHl].
    unfold Header.markRead.
    destruct (String.eqb (Header.id n) i) eqn:E; cbn [Header.read Header.id]; [by left|].
    destruct Hn as [Hr|Hin]; [by left|]. right.
    apply elem_of_cons in Hin as [Heq|Hin]; [|done].
    apply String.eqb_neq in E. congruence.
Qed.

(** X2. Clicking every notification of the list, in any state, leaves no unread
    notification: the badge disappears. *)
Theorem click_every_notification_clears_badge (s : Header.State) :
  Header.unreadCount
    (Header.clickAll (map Header.id (Header.notifications s)) s) = 0%nat.
Proof.
  apply clickAll_unread. apply Forall_forall. intros n Hn. right.
  apply list_elem_of_fmap. by exists n.
Qed.

(** ** The weather stand-in *)

Lemma fetchWeather_callback_spec (w : World) :
  unitInterval (entropy w) →
  ∃ w2 wd, fetchWeather_callback w = Some (tt, w2)
    ∧ weather (state w2) = Some wd
    ∧ 15 ≤ WeatherData.temperature wd ≤ 35
    ∧ 40 ≤ WeatherData.humidity wd ≤ 80
    ∧ 0 ≤ WeatherData.precipitation wd ≤ 10
    ∧ WeatherData.description wd ∈ weatherDescriptions
    ∧ weatherLoading (state w2) = false
    ∧ previewUrl (state w2) = previewUrl (state w)
    ∧ location (state w2) = location (state w)
    ∧ draws w2 = (draws w + 4)%nat.
Proof.
  intros Hrnd. destruct w as [s ts tm urls mn rnd d]. destruct s.
  cbn [entropy state previewUrl location draws] in *.
  destruct (Hrnd d) as [Ha0 Ha1].
  destruct (Hrnd (S d)) as [Hb0 Hb1].
  destruct (Hrnd (S (S d))) as [Hc0 Hc1].
  destruct (Hrnd (S (S (S d)))) as [Hd0 Hd1].
  pose proof (Math_round_affine 15 20 _ ltac:(done) ltac:(done) ltac:(done) Ha0 Ha1) as Htemp.
  pose proof (Math_round_affine 40 40 _ ltac:(done) ltac:(done) ltac:(done) Hb0 Hb1) as Hhum.
  pose proof (Math_round_between _ 0 10 (Number_mul_unit _ 10 ltac:(done) Hc0 Hc1)) as Hprec.
  change (inject_Z 15) with 15%Q in Htemp. change (inject_Z 20) with 20%Q in Htemp.
  change (inject_Z 40) with 40%Q in Hhum. change (inject_Z 10) with 10%Q in Hprec.
  destruct (index_in_range weatherDescriptions (Math_floor (rnd (S (S (S d))) * inject_Z 4)))
    as (x & Hlk & Hix); [apply (random_index_4 _ Hd0 Hd1)|].
  apply list_elem_of_lookup_2 in Hlk.
  unfold fetchWeather_callback, mbind, Handler_bind, Math_random.
  cbn [state toasts timers objectURLs minted entropy draws].
  change (4%Q) with (inject_Z 4). rewrite Hix.
  handler_step. do 2 eexists. split; [reflexivity|].
  split; [reflexivity|].
  cbn [WeatherData.temperature WeatherData.humidity WeatherData.precipitation
       WeatherData.description].
  split_and!; try done; lia.
Qed.

(** X3. Fetching the weather needs a location; once accepted it raises the
    loading flag and queues the two-second timer, and whenever that timer
    expires the weather is present with a temperature in [15, 35], a humidity
    in [40, 80], a precipitation in [0, 10] and one of the four descriptions;
    the loading flag is lowered and the location is untouched. *)
Theorem fetchWeather_ranges (w : World) :
  unitInterval (entropy w) →
  (location (state w) ≠ None →
     ∃ w1, dispatch ClickFetchWeather w = Some w1
       ∧ weatherLoading (state w1) = true
       ∧ weather (state w1) = weather (state w)
       ∧ timers w1 !! length (timers w) = Some (mkTimer fetchWeather_timeout 2000))
  ∧ (∀ (v : World) (i : nat) (ms : Z),
       unitInterval (entropy v) →
       timers v !! i = Some (mkTimer fetchWeather_timeout ms) →
       ∃ w2 wd, dispatch (TimerFires i) v = Some w2
         ∧ weather (state w2) = Some wd
         ∧ 15 ≤ WeatherData.temperature wd ≤ 35
         ∧ 40 ≤ WeatherData.humidity wd ≤ 80
         ∧ 0 ≤ WeatherData.precipitation wd ≤ 10
         ∧ WeatherData.description wd ∈ weatherDescriptions
         ∧ weatherLoading (state w2) = false
         ∧ location (state w2) = location (state v)).
Proof.
  intros Hrnd. split.
  - intros Hloc. destruct (location (state w)) as [loc|] eqn:El; [|done].
    eexists. split.
    + apply dispatch_same_preview;
        [cbn [handle]; unfold fetchWeather; rewrite El; reflexivity | reflexivity].
    + split; [reflexivity|]. split; [reflexivity|]. apply lookup_last_timer.
  - intros v i ms Hv Hpending.
    pose proof (fireTimer_pending i _ v Hpending) as Hfire.
    cbn [callback runCallback] in Hfire.
    destruct (fetchWeather_callback_spec
                (mkWorld (state v) (toasts v) (take i (timers v) ++ drop (S i) (timers v))
                         (objectURLs v) (minted v) (entropy v) (draws v)) Hv)
      as (w2 & wd & Hcb & Hwd & Ht & Hh & Hp & Hdesc & Hflag & Hprev & Hloc & _).
    assert (dispatch (TimerFires i) v = Some w2) as Hd.
    { apply dispatch_same_preview; [cbn [handle]; by rewrite Hfire | exact Hprev]. }
    exists w2, wd. split_and!; try done; lia.
Qed.

Lemma fetchWeather_ranges_witness :
  (location (state scenarioWorld) ≠ None →
     ∃ w1, dispatch ClickFetchWeather scenarioWorld = Some w1
       ∧ weatherLoading (state w1) = true
       ∧ weather (state w1) = weather (state scenarioWorld)
       ∧ timers w1 !! length (timers scenarioWorld) = Some (mkTimer fetchWeather_timeout 2000))
  ∧ (∀ (v : World) (i : nat) (ms : Z),
       unitInterval (entropy v) →
       timers v !! i = Some (mkTimer fetchWeather_timeout ms) →
       ∃ w2 wd, dispatch (TimerFires i) v = Some w2
         ∧ weather (state w2) = Some wd
         ∧ 15 ≤ WeatherData.temperature wd ≤ 35
         ∧ 40 ≤ WeatherData.humidity wd ≤ 80
         ∧ 0 ≤ WeatherData.precipitation wd ≤ 10
         ∧ WeatherData.description wd ∈ weatherDescriptions
         ∧ weatherLoading (state w2) = false
         ∧ location (state w2) = location (state v)).
Proof.
  apply (fetchWeather_ranges scenarioWorld).
  intros n. vm_compute. split; [discriminate | reflexivity].
Defined.

(** ** The manual location form *)

Lemma stripPrefix_Some (p l rest : list Ascii.ascii) :
  stripPrefix p l = Some rest ↔ l = p ++ rest.
Proof.
  revert l. induction p as [|a p IH]; intros l; cbn [stripPrefix app].
  - split; congruence.
  - destruct l as [|b l]; [split; discriminate|].
    destruct (Ascii.eqb_spec a b) as [->|Hne].
    + rewrite IH. split; congruence.
    + split; [discriminate | congruence].
Qed.

Lemma stripOne_Some (table : list (list Ascii.ascii)) (l rest : list Ascii.ascii) :
  stripOne table l = Some rest → ∃ e, e ∈ table ∧ l = e ++ rest.
Proof.
  induction table as [|e table IH]; cbn [stripOne]; [discriminate|].
  destruct (stripPrefix e l) as [r|] eqn:Ep.
  - intros [= ->]. exists e. split; [apply list_elem_of_here | by apply stripPrefix_Some].
  - intros H. destruct (IH H) as (e' & He' & Hl). exists e'.
    split; [by apply list_elem_of_further | done].
Qed.

Lemma stripOne_None (table : list (list Ascii.ascii)) (l : list Ascii.ascii) :
  stripOne table l = None → ∀ e rest, e ∈ table → l ≠ e ++ rest.
Proof.
  induction table as [|e table IH]; cbn [stripOne]; intros H e' rest He' Hl.
  - by apply elem_of_nil in He'.
  - destruct (stripPrefix e l) as [r|] eqn:Ep; [discriminate|].
    apply elem_of_cons in He' as [->|He'].
    + apply stripPrefix_Some in Hl. congruence.
    + by apply (IH H e' rest).
Qed.

(** In a prefix-free table the entry at the front is the one taken off. *)
Lemma stripOne_prefixFree (table : list (list Ascii.ascii)) (e rest : list Ascii.ascii) :
  prefixFree table → e ∈ table → stripOne table (e ++ rest) = Some rest.
Proof.
  intros Hfree He.
  destruct (stripOne table (e ++ rest)) as [r|] eqn:Es.
  - apply stripOne_Some in Es as (e' & He' & Heq).
    unfold prefixFree in Hfree. rewrite Forall_forall in Hfree.
    assert (e = e') as <-.
    { destruct (app_eq_inv _ _ _ _ Heq) as [(k & Hk & _)|(k & Hk & _)].
      - symmetry. destruct (Hfree e' He') as [_ Hp]. rewrite Forall_forall in Hp.
        apply Hp; [done | by exists k].
      - destruct (Hfree e He) as [_ Hp]. rewrite Forall_forall in Hp.
        apply Hp; [done | by exists k]. }
    by apply app_inv_head in Heq as ->.
  - exfalso. by apply (stripOne_None _ _ Es e rest).
Qed.

(** What [stripAll] takes off is made of entries of the table. *)
Lemma stripAll_sound (table : list (list Ascii.ascii)) (fuel : nat) (l : list Ascii.ascii) :
  ∃ l0, concatOf table l0 ∧ l = l0 ++ stripAll table fuel l.
Proof.
  revert l. induction fuel as [|fuel IH]; intros l; cbn [stripAll].
  - exists []. split; [by exists [] | done].
  - destruct (stripOne table l) as [r|] eqn:Es.
    + apply stripOne_Some in Es as (e & He & ->).
      destruct (IH r) as (l0 & (es & Hes & ->) & Hr).
      exists (e ++ List.concat es). split.
      * exists (e :: es). split; [by constructor | done].
      * rewrite <- app_assoc. by rewrite <- Hr.
    + exists []. split; [by exists [] | done].
Qed.

Lemma prefixFree_nonempty (table : list (list Ascii.ascii)) (e : list Ascii.ascii) :
  prefixFree table → e ∈ table → e ≠ [].
Proof.
  unfold prefixFree. rewrite Forall_forall. intros Hfree He. by destruct (Hfree e He).
Qed.

Lemma stripOne_nil (table : list (list Ascii.ascii)) :
  prefixFree table → stripOne table [] = None.
Proof.
  intros Hfree. destruct (stripOne table []) as [r|] eqn:Es; [|done].
  apply stripOne_Some in Es as (e & He & Heq).
  pose proof (prefixFree_nonempty _ _ Hfree He). by destruct e.
Qed.

(** A text made of entries only is taken off entirely. *)
Lemma stripAll_complete (table : list (list Ascii.ascii)) (fuel : nat) (l : list Ascii.ascii) :
  prefixFree table → concatOf table l → (length l ≤ fuel)%nat →
  stripAll table fuel l = [].
Proof.
  intros Hfree (es & Hes & ->). revert fuel.
  induction Hes as [|e es He Hes IH]; intros fuel Hlen.
  - cbn [List.concat]. destruct fuel; [done|]. cbn [stripAll]. by rewrite stripOne_nil.
  - cbn [List.concat] in *.
    pose proof (prefixFree_nonempty _ _ Hfree He) as Hne.
    rewrite length_app in Hlen.
    destruct e as [|a e]; [done|]. destruct fuel as [|fuel]; [cbn in Hlen; lia|].
    cbn [stripAll]. rewrite (stripOne_prefixFree table (a :: e)) by done.
    apply IH. cbn in Hlen. lia.
Qed.

(** The fuel is enough: what [stripAll] returns starts with no entry. *)
Lemma stripAll_done (table : list (list Ascii.ascii)) (fuel : nat) (l : list Ascii.ascii) :
  prefixFree table → (length l ≤ fuel)%nat →
  stripOne table (stripAll table fuel l) = None.
Proof.
  intros Hfree. revert l. induction fuel as [|fuel IH]; intros l Hlen; cbn [stripAll].
  - destruct l; [|cbn in Hlen; lia]. by apply stripOne_nil.
  - destruct (stripOne table l) as [r|] eqn:Es; [|done].
    apply IH. apply stripOne_Some in Es as (e & He & ->).
    pose proof (prefixFree_nonempty _ _ Hfree He) as Hne.
    rewrite length_app in Hlen. destruct e; [done|]. cbn in Hlen. lia.
Qed.

Lemma concatOf_app (table : list (list Ascii.ascii)) (a b : list Ascii.ascii) :
  concatOf table a → concatOf table b → concatOf table (a ++ b).
Proof.
  intros (ea & Ha & ->) (eb & Hb & ->). exists (ea ++ eb).
  split; [by apply Forall_app | by rewrite concat_app].
Qed.

Lemma concatOf_rev (table : list (list Ascii.ascii)) (l : list Ascii.ascii) :
  concatOf (map (@rev Ascii.ascii) table) l → concatOf table (rev l).
Proof.
  intros (es & Hes & ->). induction Hes as [|e es He Hes IH].
  - by exists [].
  - cbn [List.concat]. rewrite rev_app_distr. apply concatOf_app; [exact IH|].
    apply list_elem_of_fmap in He as (e0 & -> & He0). rewrite rev_involutive.
    exists [e0]. split; [by repeat constructor | cbn; by rewrite app_nil_r].
Qed.

Lemma concatOf_whiteSpace (l : list Ascii.ascii) :
  concatOf whiteSpace l ↔
  ∃ cs, Forall (λ c, c ∈ whiteSpaceCodePoints) cs ∧ l = List.concat (map utf8 cs).
Proof.
  split.
  - intros (es & Hes & ->). induction Hes as [|e es He Hes (cs & Hcs & IH)].
    + by exists [].
    + apply list_elem_of_fmap in He as (c & -> & Hc). exists (c :: cs).
      split; [by constructor | cbn [map List.concat]; by rewrite IH].
  - intros (cs & Hcs & ->). exists (map utf8 cs). split; [|done].
    apply Forall_fmap. eapply Forall_impl; [exact Hcs|].
    intros c Hc. by apply list_elem_of_fmap_2.
Qed.

(** UTF-8 is a prefix code. *)
Lemma whiteSpace_prefixFree : prefixFree whiteSpace.
Proof. apply (bool_decide_unpack _). by vm_compute. Qed.

Lemma truthy_string_of_list_ascii (l : list Ascii.ascii) :
  truthy (String.string_of_list_ascii l) = false ↔ l = [].
Proof. destruct l; cbn; split; congruence. Qed.

(** [!city.trim()] holds exactly for the strings made of white space only. *)
Lemma truthy_trim (s : string) : truthy (trim s) = false ↔ WhiteSpaceOnly s.
Proof.
  unfold trim, WhiteSpaceOnly. rewrite truthy_string_of_list_ascii.
  set (l := String.list_ascii_of_string s). rewrite <- concatOf_whiteSpace. split.
  - intros Hempty.
    destruct (stripAll_sound whiteSpace (length l) l) as (l0 & Hl0 & Hl).
    fold (trimStart l) in Hl. rewrite Hl. apply concatOf_app; [done|].
    unfold trimEnd in Hempty.
    destruct (stripAll_sound (map (@rev Ascii.ascii) whiteSpace)
                (length (trimStart l)) (rev (trimStart l))) as (r0 & Hr0 & Hr).
    apply (f_equal (@rev Ascii.ascii)) in Hempty. rewrite rev_involutive in Hempty.
    cbn [rev] in Hempty. rewrite Hempty, app_nil_r in Hr.
    rewrite <- (rev_involutive (trimStart l)), Hr. by apply concatOf_rev.
  - intros Hws. unfold trimStart.
    by rewrite (stripAll_complete whiteSpace _ l whiteSpace_prefixFree Hws).
Qed.

Lemma whiteSpace_suffixFree : prefixFree (map (@rev Ascii.ascii) whiteSpace).
Proof. apply (bool_decide_unpack _). by vm_compute. Qed.

(** What [trim] returns: the text without a run of white space at the front
    and one at the end, and with no white space left at either end (so the
    rounds of [stripAll] were enough). *)
Lemma trim_spec (l : list Ascii.ascii) :
  ∃ a b, concatOf whiteSpace a ∧ concatOf whiteSpace b
    ∧ l = a ++ trimEnd (trimStart l) ++ b
    ∧ stripOne whiteSpace (trimEnd (trimStart l)) = None
    ∧ stripOne (map (@rev Ascii.ascii) whiteSpace) (rev (trimEnd (trimStart l))) = None.
Proof.
  destruct (stripAll_sound whiteSpace (length l) l) as (a & Ha & Hl).
  fold (trimStart l) in Hl. set (t := trimStart l) in *.
  destruct (stripAll_sound (map (@rev Ascii.ascii) whiteSpace) (length t) (rev t))
    as (r & Hr & Ht).
  assert (t = trimEnd t ++ rev r) as Ht'.
  { unfold trimEnd. rewrite <- rev_app_distr, <- Ht. by rewrite rev_involutive. }
  exists a, (rev r). split; [done|]. split; [by apply concatOf_rev|].
  split; [by rewrite <- Ht'|]. split.
  - assert (stripOne whiteSpace t = None) as Hstart
      by (by apply stripAll_done; [apply whiteSpace_prefixFree|]).
    destruct (stripOne whiteSpace (trimEnd t)) as [rest|] eqn:Es; [|done].
    apply stripOne_Some in Es as (e & He & Heq). exfalso.
    apply (stripOne_None _ _ Hstart e (rest ++ rev r) He).
    rewrite Ht' at 1. rewrite Heq. by rewrite <- app_assoc.
  - unfold trimEnd. rewrite rev_involutive.
    apply stripAll_done; [apply whiteSpace_suffixFree|]. by rewrite length_rev.
Qed.

(** NO-BREAK SPACE and LINE SEPARATOR are trimmed like the ASCII blanks. *)
Example trim_examples :
  let nbsp := String.string_of_list_ascii (utf8 160) in
  let ls := String.string_of_list_ascii (utf8 8232) in
  trim "  New York " = "New York"
  ∧ trim (nbsp +:+ " Austin" +:+ ls +:+ nbsp) = "Austin"
  ∧ trim (nbsp +:+ ls +:+ " ") = ""
  ∧ trim "" = "".
Proof. by vm_compute. Qed.

Lemma WhiteSpaceOnly_dec (s : string) : WhiteSpaceOnly s ∨ ¬ WhiteSpaceOnly s.
Proof.
  rewrite <- truthy_trim. destruct (truthy (trim s)); [right | left]; congruence.
Qed.

Lemma manual_latitude (r : Q) :
  (0 <= r)%Q → (r < 1)%Q →
  (double (357128 # 10000)
   <= Number_add (double (407128 # 10000)) (Number_mul (Number_sub r (1 # 2)) 10)
   <= double (457128 # 10000))%Q.
Proof.
  apply manual_coordinate.
  - exists 2513064887068079, (-46). split; [lia|]. split; [by vm_compute|]. by vm_compute.
  - exists 3216752328844719, (-46). split; [lia|]. split; [by vm_compute|]. by vm_compute.
  - by vm_compute.
  - by vm_compute.
Qed.

Lemma manual_longitude (r : Q) :
  (0 <= r)%Q → (r < 1)%Q →
  (- double (790060 # 10000)
   <= Number_add (- double (740060 # 10000)) (Number_mul (Number_sub r (1 # 2)) 10)
   <= - double (690060 # 10000))%Q.
Proof.
  apply manual_coordinate.
  - exists (-2779776501250261), (-45). split; [lia|]. split; [by vm_compute|]. by vm_compute.
  - exists (-2427932780361941), (-45). split; [lia|]. split; [by vm_compute|]. by vm_compute.
  - by vm_compute.
  - by vm_compute.
Qed.

(** The upper ends are reached: with the largest draw below 1 the binary64
    sums are the literals 45.7128 and -69.006 themselves. *)
Example manual_location_reaches_the_bounds :
  let r := (9007199254740991 # 9007199254740992)%Q in
  (Number_add (double (407128 # 10000)) (Number_mul (Number_sub r (1 # 2)) 10)
   == double (457128 # 10000))%Q
  ∧ (Number_add (- double (740060 # 10000)) (Number_mul (Number_sub r (1 # 2)) 10)
     == - double (690060 # 10000))%Q.
Proof. by vm_compute. Qed.

(** X4. Submitting the manual location is rejected exactly when the city is
    made of white space only, as [String.prototype.trim] understands it (the
    ASCII blanks and line ends, NO-BREAK SPACE, the Unicode spaces, the line
    and paragraph separators, U+FEFF), the empty city included. Otherwise the
    location becomes present with the city and state as typed (not trimmed), a
    latitude from 35.7128 to 45.7128 and a longitude from -79.006 to -69.006,
    both ends included since the binary64 sum can round onto them; the form
    is closed but keeps its text, and an existing weather snapshot is not
    invalidated. *)
Theorem handleManualLocationSubmit_city (w : World) :
  unitInterval (entropy w) →
  (WhiteSpaceOnly (ManualLocation.city (manualLocation (state w))) →
     dispatch SubmitManualLocation w =
       Some (addToast ToastError "Please enter a city name" w))
  ∧ (¬ WhiteSpaceOnly (ManualLocation.city (manualLocation (state w))) →
     ∃ w' loc, dispatch SubmitManualLocation w = Some w'
       ∧ location (state w') = Some loc
       ∧ LocationData.city loc = Some (ManualLocation.city (manualLocation (state w)))
       ∧ LocationData.state loc = Some (ManualLocation.state (manualLocation (state w)))
       ∧ (double (357128 # 10000) <= LocationData.lat loc <= double (457128 # 10000))%Q
       ∧ (- double (790060 # 10000) <= LocationData.lng loc
          <= - double (690060 # 10000))%Q
       ∧ showManualLocation (state w') = false
       ∧ manualLocation (state w') = manualLocation (state w)
       ∧ weather (state w') = weather (state w)
       ∧ toasts w' = toasts w ++
           [mkToast ToastSuccess
              ("Location set to " +:+ ManualLocation.city (manualLocation (state w)))]).
Proof.
  intros Hrnd.
  pose proof (truthy_trim (ManualLocation.city (manualLocation (state w)))) as Htrim.
  split.
  - intros Hws. apply Htrim in Hws.
    apply dispatch_same_preview; [|done].
    cbn [handle]. unfold handleManualLocationSubmit. by rewrite Hws.
  - intros Hws.
    assert (truthy (trim (ManualLocation.city (manualLocation (state w)))) = true) as Ht.
    { destruct (truthy _); [done|]. exfalso. by apply Hws, Htrim. }
    clear Htrim Hws.
    destruct w as [s ts tm urls mn rnd d]. destruct s.
    cbn [state manualLocation entropy weather toasts] in *.
    destruct (Hrnd d) as [Ha0 Ha1]. destruct (Hrnd (S d)) as [Hb0 Hb1].
    pose proof (manual_latitude _ Ha0 Ha1) as Hlat.
    pose proof (manual_longitude _ Hb0 Hb1) as Hlng.
    do 2 eexists. split.
    + apply dispatch_same_preview.
      * cbn [handle state]. unfold handleManualLocationSubmit.
        cbn [manualLocation]. rewrite Ht. cbn [negb].
        handler_step. reflexivity.
      * reflexivity.
    + handler_step. split; [reflexivity|].
      cbn [LocationData.city LocationData.state LocationData.lat LocationData.lng].
      split; [reflexivity|]. split; [reflexivity|].
      split; [exact Hlat|]. split; [exact Hlng|].
      repeat split; reflexivity.
Qed.

Lemma handleManualLocationSubmit_city_witness :
  (WhiteSpaceOnly (ManualLocation.city (manualLocation (state scenarioWorld))) →
     dispatch SubmitManualLocation scenarioWorld =
       Some (addToast ToastError "Please enter a city name" scenarioWorld))
  ∧ (¬ WhiteSpaceOnly (ManualLocation.city (manualLocation (state scenarioWorld))) →
     ∃ w' loc, dispatch SubmitManualLocation scenarioWorld = Some w'
       ∧ location (state w') = Some loc
       ∧ LocationData.city loc
         = Some (ManualLocation.city (manualLocation (state scenarioWorld)))
       ∧ LocationData.state loc
         = Some (ManualLocation.state (manualLocation (state scenarioWorld)))
       ∧ (double (357128 # 10000) <= LocationData.lat loc <= double (457128 # 10000))%Q
       ∧ (- double (790060 # 10000) <= LocationData.lng loc
          <= - double (690060 # 10000))%Q
       ∧ showManualLocation (state w') = false
       ∧ manualLocation (state w') = manualLocation (state scenarioWorld)
       ∧ weather (state w') = weather (state scenarioWorld)
       ∧ toasts w' = toasts scenarioWorld ++
           [mkToast ToastSuccess
              ("Location set to " +:+
               ManualLocation.city (manualLocation (state scenarioWorld)))]).
Proof.
  apply (handleManualLocationSubmit_city scenarioWorld).
  intros n. vm_compute. split; [discriminate | reflexivity].
Defined.

(** ** The comparison selection *)

Lemma existsb_eqb_elem (c : string) (l : list string) :
  existsb (String.eqb c) l = true ↔ c ∈ l.
Proof.
  rewrite existsb_exists. split.
  - intros (x & Hin & Heq). apply String.eqb_eq in Heq as <-. by apply list_elem_of_In.
  - intros Hin. exists c. split; [by apply list_elem_of_In | apply String.eqb_refl].
Qed.

(** The selection a click on "Compare" leaves. *)
Lemma toggleCropComparison_dispatch (w : World) (c : string) :
  ∃ w', dispatch (ClickToggleCropComparison c) w = Some w'
    ∧ selectedCropsForComparison (state w') =
        (if existsb (String.eqb c) (selectedCropsForComparison (state w))
         then filter (λ name, name ≠ c) (selectedCropsForComparison (state w))
         else selectedCropsForComparison (state w) ++ [c])
    ∧ entities (state w') = entities (state w)
    ∧ cropSuggestions (state w') = cropSuggestions (state w)
    ∧ timers w' = timers w
    ∧ length (toasts w') = S (length (toasts w)).
Proof.
  open_world w. eexists. split.
  - apply dispatch_same_preview.
    + cbn [handle state]. unfold toggleCropComparison. handler_step. reflexivity.
    + reflexivity.
  - cbn [state selectedCropsForComparison]. split; [reflexivity|]. split; [reflexivity|].
    split; [reflexivity|]. split; [reflexivity|].
    cbn [toasts]. rewrite length_app. cbn [length]. lia.
Qed.

(** X5. A click on "Compare" flips the membership of that crop in the selection
    and of no other crop, shows one toast, and keeps a duplicate-free
    selection duplicate-free; no workflow entity changes. *)
Theorem toggleCropComparison_flips (w : World) (c : string) :
  ∃ w', dispatch (ClickToggleCropComparison c) w = Some w'
    ∧ (c ∈ selectedCropsForComparison (state w')
       ↔ c ∉ selectedCropsForComparison (state w))
    ∧ (∀ n, n ≠ c →
         (n ∈ selectedCropsForComparison (state w')
          ↔ n ∈ selectedCropsForComparison (state w)))
    ∧ (NoDup (selectedCropsForComparison (state w)) →
       NoDup (selectedCropsForComparison (state w')))
    ∧ entities (state w') = entities (state w)
    ∧ length (toasts w') = S (length (toasts w)).
Proof.
  destruct (toggleCropComparison_dispatch w c) as (w' & Hd & Hsel & Hent & _ & _ & Hto).
  exists w'. rewrite Hsel.
  destruct (existsb (String.eqb c) (selectedCropsForComparison (state w))) eqn:Hex.
  - apply existsb_eqb_elem in Hex.
    split; [exact Hd|]. split.
    { rewrite list_elem_of_filter. split; [by intros [? _] | done]. }
    split.
    { intros n Hn. rewrite list_elem_of_filter. split; [by intros [_ ?] | done]. }
    split; [|done]. by apply NoDup_filter.
  - assert (c ∉ selectedCropsForComparison (state w)) as Hnot.
    { intros Hin. apply existsb_eqb_elem in Hin. congruence. }
    split; [exact Hd|]. split.
    { rewrite elem_of_app, list_elem_of_singleton. split; [done | by right]. }
    split.
    { intros n Hn. rewrite elem_of_app, list_elem_of_singleton.
      split; [by intros [?|?] | by left]. }
    split; [|done]. intros Hnd. apply NoDup_app. split; [done|]. split.
    + intros x Hx Hxc. apply list_elem_of_singleton in Hxc as ->. done.
    + apply NoDup_singleton.
Qed.

(** ** Running handlers inside a hypothesis *)

Ltac handler_step_in H :=
  cbv beta iota zeta delta
      [mbind Handler_bind mret Handler_ret
       toast_error toast_success toast_info toast setTimeout modifyState
       setSelectedFile setPreviewUrl setIsDragging setLocation setManualLocation
       setShowManualLocation setWeather setWeatherLoading setAnalyzing
       setSoilResult setCropSuggestions setSuggestingCrops setShowMapPicker
       setSelectedCropsForComparison setExpandedCrop getState
       withIsDragging withCropSuggestions
       URL_createObjectURL URL_revokeObjectURL Math_random
       state toasts timers objectURLs minted entropy draws withState addToast addTimer
       selectedFile previewUrl isDragging location manualLocation showManualLocation
       locationLoading weather weatherLoading analyzing soilResult cropSuggestions
       suggestingCrops showImageZoom showMapPicker showExportDialog exportEmail
       selectedCropsForComparison expandedCrop
       fst snd] in H.

(** Equations between opened records are taken apart field by field. *)
Ltac inject_records :=
  repeat match goal with
    | H : mkWorld _ _ _ _ _ _ _ = mkWorld _ _ _ _ _ _ _ |- _ =>
        injection H as ? ? ? ? ? ? ?; subst
    | H : mkState _ _ _ _ _ _ _ _ _ _ _ _ _ _ _ _ _ _ _
          = mkState _ _ _ _ _ _ _ _ _ _ _ _ _ _ _ _ _ _ _ |- _ =>
        injection H as ? ? ? ? ? ? ? ? ? ? ? ? ? ? ? ? ? ? ?; subst
    end.

(** ** Reachable states *)

Lemma dispatch_inv (e : Event) (w w' : World) :
  dispatch e w = Some w' →
  ∃ w1, handle e (state w) w = Some (tt, w1)
    ∧ state w' = state w1 ∧ toasts w' = toasts w1 ∧ timers w' = timers w1
    ∧ minted w' = minted w1 ∧ entropy w' = entropy w1 ∧ draws w' = draws w1
    ∧ (∀ u, u ∈ objectURLs w' ↔
            u ∈ objectURLs w1 ∧
            ¬ (u = previewUrl (state w) ∧ u ≠ "" ∧ u ≠ previewUrl (state w1))).
Proof.
  intros Hd.
  destruct (handle e (state w) w) as [[[] w1]|] eqn:Hh.
  - destruct (dispatch_handle e w w1 Hh) as (w2 & Hd2 & Hrest).
    rewrite Hd in Hd2. injection Hd2 as <-. by exists w1.
  - unfold dispatch, mbind, Handler_bind, fmap, option_fmap, option_map in Hd.
    by rewrite Hh in Hd.
Qed.

Lemma run_app (es1 es2 : list Event) (w : World) :
  run (es1 ++ es2) w = run es1 w ≫= run es2.
Proof.
  revert w. induction es1 as [|e es1 IH]; intros w; [done|].
  cbn [run app]. destruct (dispatch e w) as [w1|]; [apply IH | done].
Qed.

Lemma reachable_initial (rnd : nat → Q) : unitInterval rnd → reachable (initialWorld rnd).
Proof. intros Hrnd. by exists rnd, []. Qed.

Lemma reachable_step (e : Event) (w w' : World) :
  reachable w → dispatch e w = Some w' → reachable w'.
Proof.
  intros (rnd & es & Hrnd & Hrun) Hd. exists rnd, (es ++ [e]). split; [done|].
  rewrite run_app, Hrun. cbn. by rewrite Hd.
Qed.

(** Induction over the runs of the session. *)
Lemma reachable_ind (P : World → Prop) :
  (∀ rnd, unitInterval rnd → P (initialWorld rnd)) →
  (∀ e w w', reachable w → P w → dispatch e w = Some w' → P w') →
  ∀ w, reachable w → P w.
Proof.
  intros Hinit Hstep w (rnd & es & Hrnd & Hrun).
  assert (∀ es w0 w1, reachable w0 → P w0 → run es w0 = Some w1 → P w1) as Hgen.
  { clear - Hstep. intros es0. induction es0 as [|e es IH]; intros w0 w1 Hr HP Hrun.
    - cbn in Hrun. by injection Hrun as <-.
    - cbn [run] in Hrun. destruct (dispatch e w0) as [w0'|] eqn:Hd; [|done].
      apply (IH w0' w1); [by eapply reachable_step | by eapply Hstep | done]. }
  apply (Hgen es (initialWorld rnd) w); [by apply reachable_initial | by apply Hinit | done].
Qed.

(** What a timer callback leaves alone, and the flag it lowers. *)
Lemma runCallback_frame (cb : Callback) (w w1 : World) :
  runCallback cb w = Some (tt, w1) →
  selectedFile (state w1) = selectedFile (state w)
  ∧ previewUrl (state w1) = previewUrl (state w)
  ∧ objectURLs w1 = objectURLs w
  ∧ minted w1 = minted w
  ∧ timers w1 = timers w
  ∧ selectedCropsForComparison (state w1) = selectedCropsForComparison (state w)
  ∧ cropSuggestions (state w1) =
      match cb with
      | suggestCrops_timeout => crops
      | _ => cropSuggestions (state w)
      end
  ∧ weatherLoading (state w1) =
      match cb with
      | fetchWeather_timeout => false
      | _ => weatherLoading (state w)
      end
  ∧ analyzing (state w1) =
      match cb with
      | analyzeSoil_timeout => false
      | _ => analyzing (state w)
      end
  ∧ suggestingCrops (state w1) =
      match cb with
      | suggestCrops_timeout => false
      | _ => suggestingCrops (state w)
      end.
Proof.
  intros Hcb. open_world w.
  destruct cb; cbn [runCallback] in Hcb;
    unfold fetchWeather_callback, analyzeSoil_callback, suggestCrops_callback, index,
      throw in Hcb;
    handler_step_in Hcb; repeat case_match; simplify_eq; inject_records;
    by handler_step.
Qed.

(** Every handler but the timer one, taken apart on an opened world. *)
Ltac crush_handler H :=
  unfold handleFileInputChange, handleDrop, captureFromCamera, handleFileSelect,
    clearImage, handleManualLocationSubmit, confirmMapLocation, fetchWeather,
    analyzeSoil, suggestCrops, toggleCropSaved, toggleCropComparison, resetAll,
    clearImage in H;
  handler_step_in H; repeat case_match; simplify_eq; inject_records.

Lemma fireTimer_inv (i : nat) (w w1 : World) :
  fireTimer i w = Some (tt, w1) →
  w1 = w
  ∨ ∃ t, timers w !! i = Some t
      ∧ runCallback (callback t)
          (mkWorld (state w) (toasts w) (take i (timers w) ++ drop (S i) (timers w))
                   (objectURLs w) (minted w) (entropy w) (draws w)) = Some (tt, w1).
Proof.
  unfold fireTimer. destruct (timers w !! i) as [t|] eqn:Et.
  - intros Hcb. right. by exists t.
  - intros [= ->]. by left.
Qed.

(** ** The preview URL *)

(** The three things a handler can do to the image. *)
Lemma handle_image_effect (e : Event) (w w1 : World) :
  handle e (state w) w = Some (tt, w1) →
  (selectedFile (state w1) = selectedFile (state w)
   ∧ previewUrl (state w1) = previewUrl (state w)
   ∧ objectURLs w1 = objectURLs w)
  ∨ (∃ f, selectedFile (state w1) = Some f
      ∧ previewUrl (state w1) = blobURL (minted w)
      ∧ objectURLs w1 = {[blobURL (minted w)]} ∪ objectURLs w)
  ∨ (selectedFile (state w1) = None
     ∧ previewUrl (state w1) = ""
     ∧ objectURLs w1 =
         (if truthy (previewUrl (state w))
          then objectURLs w ∖ {[previewUrl (state w)]} else objectURLs w)
     ∧ (truthy (previewUrl (state w)) = false → previewUrl (state w) = "")).
Proof.
  intros Hh. destruct e; cbn [handle] in Hh.
  18:{ apply fireTimer_inv in Hh as [->|(t & _ & Hcb)]; [by left|].
       apply runCallback_frame in Hcb as (Hf & Hp & Hu & _). left. by rewrite Hf, Hp, Hu. }
  all: open_world w; handler_step; crush_handler Hh; handler_step;
    first [ by left
          | by (right; left; eexists)
          | right; right; split_and!; try done;
            match goal with H : truthy ?p = false |- _ => by destruct p end ].
Qed.

(** X6. In every reachable state the image is all there or not at all: a file is
    selected exactly when the preview URL is non-empty, and the only object
    URL alive is that preview URL. Replacing, clearing and resetting leak no
    URL, and the preview shown is never a revoked one. *)
Theorem preview_url_is_the_only_live_url (w : World) :
  reachable w →
  (selectedFile (state w) = None ↔ previewUrl (state w) = "")
  ∧ (∀ u, u ∈ objectURLs w ↔ u = previewUrl (state w) ∧ u ≠ "").
Proof.
  revert w. apply reachable_ind.
  - intros rnd _. split; [done|]. intros u. cbn. split; [|by intros [-> ?]].
    intros Hu. by apply not_elem_of_empty in Hu.
  - intros e w w' _ [Hsel Hurls] Hd.
    apply dispatch_inv in Hd as (w1 & Hh & Hst & _ & _ & _ & _ & _ & Hclean).
    rewrite Hst.
    pose proof (blobURL_nonempty (minted w)) as Hblob.
    destruct (handle_image_effect e w w1 Hh)
      as [(Hf & Hp & Hu)|[(f & Hf & Hp & Hu)|(Hf & Hp & Hu & Hempty)]];
      rewrite Hf, Hp.
    + split; [done|]. intros u. rewrite Hclean, Hu, Hurls, Hp. intuition congruence.
    + split; [split; [done | intros He; by rewrite He in Hblob]|].
      intros u. rewrite Hclean, Hu, Hp, elem_of_union, elem_of_singleton, Hurls.
      destruct (decide (u = blobURL (minted w))) as [->|Hne]; intuition congruence.
    + split; [done|]. intros u. rewrite Hclean, Hu, Hp.
      destruct (truthy (previewUrl (state w))) eqn:Ht.
      * rewrite elem_of_difference, elem_of_singleton, Hurls. intuition congruence.
      * rewrite Hurls, (Hempty eq_refl). intuition congruence.
Qed.

Lemma preview_url_is_the_only_live_url_witness :
  (selectedFile (state scenarioWorld) = None ↔ previewUrl (state scenarioWorld) = "")
  ∧ (∀ u, u ∈ objectURLs scenarioWorld ↔ u = previewUrl (state scenarioWorld) ∧ u ≠ "").
Proof.
  apply (preview_url_is_the_only_live_url scenarioWorld).
  exists half, scenario. split; [|vm_compute; reflexivity].
  intros n. split; [discriminate | reflexivity].
Defined.

(** ** The two lists of the results panel *)

(** What a handler can do to the suggestions and to the comparison
    selection. *)
Lemma handle_lists_effect (e : Event) (w w1 : World) :
  handle e (state w) w = Some (tt, w1) →
  (cropSuggestions (state w1) = cropSuggestions (state w)
   ∨ cropSuggestions (state w1) = []
   ∨ cropSuggestions (state w1) = crops
   ∨ ∃ n, cropSuggestions (state w1) = map (toggleSaved n) (cropSuggestions (state w)))
  ∧ (selectedCropsForComparison (state w1) = selectedCropsForComparison (state w)
     ∨ selectedCropsForComparison (state w1) = []
     ∨ ∃ c, selectedCropsForComparison (state w1) =
          (if existsb (String.eqb c) (selectedCropsForComparison (state w))
           then filter (λ name, name ≠ c) (selectedCropsForComparison (state w))
           else selectedCropsForComparison (state w) ++ [c])).
Proof.
  intros Hh. destruct e; cbn [handle] in Hh.
  18:{ apply fireTimer_inv in Hh as [->|(t & _ & Hcb)]; [split; by left|].
       apply runCallback_frame in Hcb as (_ & _ & _ & _ & _ & Hsel & Hcrops & _).
       cbn [state] in Hsel, Hcrops. split; [|by left].
       destruct (callback t); auto. }
  all: open_world w; handler_step; crush_handler Hh; handler_step;
    split;
    first [ by left | by (right; left) | by (right; right; left)
          | by (right; right; right; eexists)
          | right; right; exists cropName;
            match goal with H : existsb _ _ = _ |- _ => by rewrite H end ].
Qed.

Lemma unsave_toggleSaved (n : string) (c : CropSuggestion.t) :
  unsave (toggleSaved n c) = unsave c.
Proof. unfold toggleSaved. by destruct (String.eqb (CropSuggestion.name c) n). Qed.

Lemma suggestions_are_the_fixed_crops_aux (w : World) :
  reachable w →
  cropSuggestions (state w) = []
  ∨ map unsave (cropSuggestions (state w)) = crops.
Proof.
  revert w. apply reachable_ind.
  - intros rnd _. by left.
  - intros e w w' _ Hinv Hd.
    apply dispatch_inv in Hd as (w1 & Hh & Hst & _).
    rewrite Hst.
    destruct (handle_lists_effect e w w1 Hh) as [[Hc|[Hc|[Hc|[n Hc]]]] _]; rewrite Hc.
    + exact Hinv.
    + by left.
    + by right.
    + destruct Hinv as [Hnil|Hfix].
      * left. by rewrite Hnil.
      * right. rewrite <- Hfix, List.map_map. apply List.map_ext.
        intros c. apply unsave_toggleSaved.
Qed.

(** X7. In every reachable state the suggestion list is empty or is the fixed
    list of four crops up to the saved flags: no handler adds, removes,
    reorders or edits a suggestion, it only flips bookmarks. Hence the names
    in the list are pairwise distinct. *)
Theorem suggestions_are_the_fixed_crops (w : World) :
  reachable w →
  (cropSuggestions (state w) = []
   ∨ map unsave (cropSuggestions (state w)) = crops)
  ∧ NoDup (map CropSuggestion.name (cropSuggestions (state w))).
Proof.
  intros Hreach.
  destruct (suggestions_are_the_fixed_crops_aux w Hreach) as [Hnil|Hfix].
  - split; [by left|]. rewrite Hnil. apply NoDup_nil_2.
  - split; [by right|].
    replace (map CropSuggestion.name (cropSuggestions (state w)))
      with (map CropSuggestion.name crops).
    + apply NoDup_ListNoDup. cbn. repeat constructor; cbn; intuition discriminate.
    + rewrite <- Hfix, List.map_map. by apply List.map_ext.
Qed.

Lemma suggestions_are_the_fixed_crops_witness :
  (cropSuggestions (state scenarioWorld) = []
   ∨ map unsave (cropSuggestions (state scenarioWorld)) = crops)
  ∧ NoDup (map CropSuggestion.name (cropSuggestions (state scenarioWorld))).
Proof.
  apply (suggestions_are_the_fixed_crops scenarioWorld).
  exists half, scenario. split; [|vm_compute; reflexivity].
  intros n. split; [discriminate | reflexivity].
Defined.



(** ** One bookmark at a time *)

Lemma toggleSaved_unique (l : list CropSuggestion.t) (i : nat) (c : CropSuggestion.t) :
  NoDup (map CropSuggestion.name l) →
  l !! i = Some c →
  map (toggleSaved (CropSuggestion.name c)) l
  = <[i := toggleSaved (CropSuggestion.name c) c]> l
  ∧ List.find (λ d, String.eqb (CropSuggestion.name d) (CropSuggestion.name c)) l = Some c.
Proof.
  revert i. induction l as [|d l IH]; intros i Hnd Hi; [done|].
  cbn [map] in Hnd. apply NoDup_cons in Hnd as [Hd Hnd].
  destruct i as [|i]; cbn [map List.find].
  - injection Hi as ->. rewrite String.eqb_refl. split; [|done].
    cbn. f_equal. by apply map_toggleSaved_absent.
  - cbn in Hi. destruct (IH i Hnd Hi) as [Hmap Hfind].
    assert (CropSuggestion.name d ≠ CropSuggestion.name c) as Hne.
    { intros Heq. apply Hd. rewrite Heq. apply list_elem_of_fmap.
      exists c. split; [done|]. by eapply list_elem_of_lookup_2. }
    apply String.eqb_neq in Hne. rewrite Hne. split; [|done].
    cbn. rewrite Hmap. f_equal. unfold toggleSaved. by rewrite Hne.
Qed.

Lemma crops_names_NoDup : NoDup (map CropSuggestion.name crops).
Proof.
  apply NoDup_ListNoDup. cbn. repeat constructor; cbn; intuition discriminate.
Qed.

(** X9. In a reachable state a click on the bookmark of the [i]-th suggestion
    replaces that entry by itself with the saved flag negated, leaves the rest
    of the list as it is, and announces "added to" or "removed from your
    plans" according to the flag before the click. *)
Theorem toggleCropSaved_flips_one_entry
    (w : World) (i : nat) (c : CropSuggestion.t) :
  reachable w →
  cropSuggestions (state w) !! i = Some c →
  ∃ w', dispatch (ClickToggleCropSaved (CropSuggestion.name c)) w = Some w'
    ∧ cropSuggestions (state w') =
        <[i := CropSuggestion.mk (CropSuggestion.name c) (CropSuggestion.suitability c)
                 (CropSuggestion.season c) (CropSuggestion.reason c)
                 (CropSuggestion.details c) (negb (CropSuggestion.saved c))]>
          (cropSuggestions (state w))
    ∧ toasts w' = toasts w ++
        [mkToast ToastSuccess
           (CropSuggestion.name c +:+ " " +:+
            (if CropSuggestion.saved c then "removed from" else "added to")
            +:+ " your plans")].
Proof.
  intros Hreach Hi.
  assert (NoDup (map CropSuggestion.name (cropSuggestions (state w)))) as Hnd.
  { destruct (suggestions_are_the_fixed_crops_aux w Hreach) as [Hnil|Hfix].
    - rewrite Hnil. apply NoDup_nil_2.
    - replace (map CropSuggestion.name (cropSuggestions (state w)))
        with (map CropSuggestion.name crops); [apply crops_names_NoDup|].
      rewrite <- Hfix, List.map_map. by apply List.map_ext. }
  destruct (toggleSaved_unique _ i c Hnd Hi) as [Hmap Hfind].
  assert (toggleSaved (CropSuggestion.name c) c
          = CropSuggestion.mk (CropSuggestion.name c) (CropSuggestion.suitability c)
              (CropSuggestion.season c) (CropSuggestion.reason c)
              (CropSuggestion.details c) (negb (CropSuggestion.saved c))) as Htog.
  { unfold toggleSaved. by rewrite String.eqb_refl. }
  rewrite Htog in Hmap.
  eexists. split.
  - apply dispatch_same_preview.
    + cbn [handle]. unfold toggleCropSaved. rewrite Hfind. reflexivity.
    + reflexivity.
  - split; [exact Hmap | reflexivity].
Qed.

Lemma toggleCropSaved_flips_one_entry_witness :
  ∃ w', dispatch (ClickToggleCropSaved "Carrots") scenarioWorld = Some w'
    ∧ cropSuggestions (state w') =
        <[1%nat := CropSuggestion.mk "Carrots" 88 "Spring/Fall"
              "Good root development in this soil type"
              "The soil structure allows for proper root expansion. Temperature and humidity levels support healthy growth."
              true]>
          (cropSuggestions (state scenarioWorld))
    ∧ toasts w' = toasts scenarioWorld ++
        [mkToast ToastSuccess "Carrots added to your plans"].
Proof.
  apply (toggleCropSaved_flips_one_entry scenarioWorld 1
           (CropSuggestion.mk "Carrots" 88 "Spring/Fall"
              "Good root development in this soil type"
              "The soil structure allows for proper root expansion. Temperature and humidity levels support healthy growth."
              false)).
  - exists half, scenario. split; [|vm_compute; reflexivity].
    intros n. split; [discriminate | reflexivity].
  - vm_compute. reflexivity.
Defined.

(** ** In-progress flags and their timers *)

(** What a handler can do to the timer queue and the three flags. *)
Lemma handle_progress_effect (e : Event) (w w1 : World) :
  handle e (state w) w = Some (tt, w1) →
  (timers w1 = timers w
   ∧ weatherLoading (state w1) = weatherLoading (state w)
   ∧ analyzing (state w1) = analyzing (state w)
   ∧ suggestingCrops (state w1) = suggestingCrops (state w))
  ∨ (∃ ms, timers w1 = timers w ++ [mkTimer fetchWeather_timeout ms]
      ∧ weatherLoading (state w1) = true
      ∧ analyzing (state w1) = analyzing (state w)
      ∧ suggestingCrops (state w1) = suggestingCrops (state w))
  ∨ (∃ ms, timers w1 = timers w ++ [mkTimer analyzeSoil_timeout ms]
      ∧ weatherLoading (state w1) = weatherLoading (state w)
      ∧ analyzing (state w1) = true
      ∧ suggestingCrops (state w1) = suggestingCrops (state w))
  ∨ (∃ ms, timers w1 = timers w ++ [mkTimer suggestCrops_timeout ms]
      ∧ weatherLoading (state w1) = weatherLoading (state w)
      ∧ analyzing (state w1) = analyzing (state w)
      ∧ suggestingCrops (state w1) = true)
  ∨ (∃ i t, timers w !! i = Some t
      ∧ timers w1 = take i (timers w) ++ drop (S i) (timers w)
      ∧ weatherLoading (state w1) =
          match callback t with
          | fetchWeather_timeout => false
          | _ => weatherLoading (state w)
          end
      ∧ analyzing (state w1) =
          match callback t with
          | analyzeSoil_timeout => false
          | _ => analyzing (state w)
          end
      ∧ suggestingCrops (state w1) =
          match callback t with
          | suggestCrops_timeout => false
          | _ => suggestingCrops (state w)
          end).
Proof.
  intros Hh. destruct e; cbn [handle] in Hh.
  18:{ apply fireTimer_inv in Hh as [->|(t & Ht & Hcb)]; [by left|].
       apply runCallback_frame in Hcb as (_ & _ & _ & _ & Htm & _ & _ & Hw & Ha & Hs).
       do 4 right. exists i, t. by rewrite Htm, Hw, Ha, Hs. }
  all: open_world w; handler_step; crush_handler Hh; handler_step;
    first [ by left
          | by (right; left; eexists)
          | by (right; right; left; eexists)
          | by (right; right; right; left; eexists) ].
Qed.

Lemma elem_of_remove_other {A} (l : list A) (i : nat) (t x : A) :
  l !! i = Some t → x ∈ l → x ≠ t → x ∈ take i l ++ drop (S i) l.
Proof.
  intros Hi Hx Hne. rewrite <- (take_drop_middle l i t Hi) in Hx.
  apply elem_of_app in Hx as [Hx|Hx]; apply elem_of_app; [by left|].
  apply elem_of_cons in Hx as [Hx|Hx]; [done | by right].
Qed.

(** X10. In every reachable state a raised in-progress flag has its timer pending:
    while "Fetching...", "Analyzing..." or "Suggesting..." is shown, the
    callback that lowers the flag is still queued, so no spinner is left
    without a completion. *)
Theorem raised_flag_has_pending_timer (w : World) :
  reachable w →
  (weatherLoading (state w) = true → pending fetchWeather_timeout w)
  ∧ (analyzing (state w) = true → pending analyzeSoil_timeout w)
  ∧ (suggestingCrops (state w) = true → pending suggestCrops_timeout w).
Proof.
  revert w. apply reachable_ind.
  - intros rnd _. by split_and!.
  - intros e w w' _ (Hw & Ha & Hs) Hd.
    apply dispatch_inv in Hd as (w1 & Hh & Hst & _ & Htm & _).
    unfold pending in *. rewrite Hst, Htm. clear Hst Htm.
    destruct (handle_progress_effect e w w1 Hh)
      as [(Ht & Hw1 & Ha1 & Hs1)
         |[(ms & Ht & Hw1 & Ha1 & Hs1)
         |[(ms & Ht & Hw1 & Ha1 & Hs1)
         |[(ms & Ht & Hw1 & Ha1 & Hs1)
         |(i & t & Hi & Ht & Hw1 & Ha1 & Hs1)]]]];
      rewrite Ht, Hw1, Ha1, Hs1.
    + by split_and!.
    + split_and!.
      * intros _. exists ms. apply elem_of_app. right. by apply list_elem_of_singleton.
      * intros H. destruct (Ha H) as [m Hm]. exists m. apply elem_of_app. by left.
      * intros H. destruct (Hs H) as [m Hm]. exists m. apply elem_of_app. by left.
    + split_and!.
      * intros H. destruct (Hw H) as [m Hm]. exists m. apply elem_of_app. by left.
      * intros _. exists ms. apply elem_of_app. right. by apply list_elem_of_singleton.
      * intros H. destruct (Hs H) as [m Hm]. exists m. apply elem_of_app. by left.
    + split_and!.
      * intros H. destruct (Hw H) as [m Hm]. exists m. apply elem_of_app. by left.
      * intros H. destruct (Ha H) as [m Hm]. exists m. apply elem_of_app. by left.
      * intros _. exists ms. apply elem_of_app. right. by apply list_elem_of_singleton.
    + destruct t as [cb ms0]. cbn [callback].
      split_and!; intros H; destruct cb; try discriminate H.
      all: first [ destruct (Hw H) as [m Hm] | destruct (Ha H) as [m Hm]
                 | destruct (Hs H) as [m Hm] ];
        exists m; by apply (elem_of_remove_other _ i _ _ Hi Hm).
Qed.

Lemma raised_flag_has_pending_timer_witness :
  (weatherLoading (state analysisPending) = true → pending fetchWeather_timeout analysisPending)
  ∧ (analyzing (state analysisPending) = true → pending analyzeSoil_timeout analysisPending)
  ∧ (suggestingCrops (state analysisPending) = true
     → pending suggestCrops_timeout analysisPending).
Proof.
  apply (raised_flag_has_pending_timer analysisPending).
  exists half, [FileInputChange (Some jpeg2MB); ClickAnalyzeSoil].
  split; [|vm_compute; reflexivity].
  intros n. split; [discriminate | reflexivity].
Defined.

(** ** Nothing is cancelled *)

Lemma clear_or_reset_spec (e : Event) (v : World) :
  e = ClickClearImage ∨ e = ClickReset →
  ∃ v1, dispatch e v = Some v1
    ∧ selectedFile (state v1) = None
    ∧ previewUrl (state v1) = ""
    ∧ soilResult (state v1) = None
    ∧ timers v1 = timers v
    ∧ entropy v1 = entropy v
    ∧ analyzing (state v1) = analyzing (state v).
Proof.
  intros He.
  assert (∃ w1, handle e (state v) v = Some (tt, w1)
            ∧ selectedFile (state w1) = None
            ∧ previewUrl (state w1) = ""
            ∧ soilResult (state w1) = None
            ∧ timers w1 = timers v
            ∧ entropy w1 = entropy v
            ∧ analyzing (state w1) = analyzing (state v)) as (w1 & Hh & Hrest).
  { open_world v. destruct He as [-> | ->]; cbn [handle]; unfold resetAll, clearImage;
      handler_step; destruct (truthy _) eqn:Ht; handler_step;
      (eexists; split; [reflexivity|]); handler_step; split_and!; try done;
      match goal with p : string |- _ = "" => by destruct p end. }
  destruct (dispatch_handle e v w1 Hh) as (v1 & Hd & Hst & _ & Htm & _ & Hen & _).
  exists v1. rewrite Hst, Htm, Hen. by split.
Qed.

(** X11. Clearing the image or resetting while an analysis is running cancels
    nothing: the timer stays queued, and when it expires a soil result appears
    although no image is selected any more. *)
Theorem pending_analysis_survives_clear_and_reset
    (e : Event) (v : World) (i : nat) (ms : Z) :
  e = ClickClearImage ∨ e = ClickReset →
  unitInterval (entropy v) →
  timers v !! i = Some (mkTimer analyzeSoil_timeout ms) →
  ∃ v1 v2 res,
    dispatch e v = Some v1
    ∧ selectedFile (state v1) = None
    ∧ soilResult (state v1) = None
    ∧ timers v1 = timers v
    ∧ dispatch (TimerFires i) v1 = Some v2
    ∧ selectedFile (state v2) = None
    ∧ previewUrl (state v2) = ""
    ∧ soilResult (state v2) = Some res.
Proof.
  intros He Hrnd Hpending.
  destruct (clear_or_reset_spec e v He) as (v1 & Hd & Hf & Hp & Hs & Htm & Hen & _).
  rewrite <- Htm in Hpending. rewrite <- Hen in Hrnd.
  pose proof (fireTimer_pending i _ v1 Hpending) as Hfire.
  cbn [callback runCallback] in Hfire.
  destruct (analyzeSoil_callback_spec
              (mkWorld (state v1) (toasts v1) (take i (timers v1) ++ drop (S i) (timers v1))
                       (objectURLs v1) (minted v1) (entropy v1) (draws v1)) Hrnd)
    as (v2 & res & Hcb & Hres & _ & _ & _ & Hprev & Hfile & _).
  cbn [state] in Hprev, Hfile.
  assert (dispatch (TimerFires i) v1 = Some v2) as Hd2.
  { apply dispatch_same_preview; [cbn [handle]; by rewrite Hfire | exact Hprev]. }
  exists v1, v2, res. rewrite Hfile, Hprev, Hf, Hp. by split_and!.
Qed.

Lemma pending_analysis_survives_clear_and_reset_witness :
  ∃ v1 v2 res,
    dispatch ClickClearImage analysisPending = Some v1
    ∧ selectedFile (state v1) = None
    ∧ soilResult (state v1) = None
    ∧ timers v1 = timers analysisPending
    ∧ dispatch (TimerFires 0) v1 = Some v2
    ∧ selectedFile (state v2) = None
    ∧ previewUrl (state v2) = ""
    ∧ soilResult (state v2) = Some res.
Proof.
  apply (pending_analysis_survives_clear_and_reset ClickClearImage analysisPending 0 3000).
  - by left.
  - intros n. vm_compute. split; [discriminate | reflexivity].
  - vm_compute. reflexivity.
Defined.

(** ** No handler throws *)

(** X12. With random draws in [0, 1), every sequence of events runs to the end:
    no handler and no timer callback reads a property of [undefined] (the
    random indices always hit the arrays), and the random stream is the one
    the session started with. *)
Theorem session_never_throws (rnd : nat → Q) (es : list Event) :
  unitInterval rnd →
  ∃ w, run es (initialWorld rnd) = Some w ∧ entropy w = rnd.
Proof.
  intros Hrnd. destruct (run_total es (initialWorld rnd) Hrnd) as (w & Hrun & He).
  by exists w.
Qed.

Lemma session_never_throws_witness :
  ∃ w, run scenario (initialWorld half) = Some w ∧ entropy w = half.
Proof.
  apply (session_never_throws half scenario).
  intros n. split; [discriminate | reflexivity].
Defined.

(** ** Detecting the location *)

(** X13. Without geolocation support the click only shows an error: the loading
    flag is not raised. With support the flag is raised, and whichever
    callback the browser runs lowers it again: the error callback opens the
    manual form and keeps the location (present or absent) that was there,
    the success callback stores the coordinates without city or state; neither
    touches the weather or the image. *)
Theorem detectLocation_outcomes (w : World) (latitude longitude : Q) :
  detectLocation false w =
    Some (tt, addToast ToastError "Geolocation is not supported by your browser" w)
  ∧ ∃ w1, detectLocation true w = Some (tt, w1)
      ∧ locationLoading (state w1) = true
      ∧ toasts w1 = toasts w
      ∧ (∃ w2, detectLocation_error w1 = Some (tt, w2)
           ∧ locationLoading (state w2) = false
           ∧ showManualLocation (state w2) = true
           ∧ location (state w2) = location (state w)
           ∧ weather (state w2) = weather (state w)
           ∧ selectedFile (state w2) = selectedFile (state w)
           ∧ toasts w2 = toasts w ++
               [mkToast ToastError "Failed to detect location. Please enter manually."])
      ∧ (∃ w2, detectLocation_success latitude longitude w1 = Some (tt, w2)
           ∧ locationLoading (state w2) = false
           ∧ showManualLocation (state w2) = showManualLocation (state w)
           ∧ location (state w2) = Some (LocationData.mk latitude longitude None None)
           ∧ weather (state w2) = weather (state w)
           ∧ selectedFile (state w2) = selectedFile (state w)
           ∧ toasts w2 = toasts w ++
               [mkToast ToastSuccess "Location detected successfully"]).
Proof.
  split; [reflexivity|]. open_world w.
  unfold detectLocation, detectLocation_error, detectLocation_success, setLocationLoading.
  cbn [negb]. handler_step.
  eexists. split; [reflexivity|]. handler_step.
  split; [reflexivity|]. split; [reflexivity|].
  split; eexists; (split; [reflexivity|]); by handler_step.
Qed.

(** ** Saving the settings *)

(** X14. "Save changes" leaves the header in the same state as "Cancel": the
    switch has already written the preference, both buttons only close the
    dialog, and Save adds its toast. *)
Theorem settings_save_equals_cancel (s : Header.State) (bs : list bool) :
  let edited := Header.switchAll bs (Header.openSettings s) in
  fst (Header.handleSettingsSave edited) = Header.cancelSettings edited
  ∧ Header.weatherAlerts (fst (Header.handleSettingsSave edited))
    = List.last bs (Header.weatherAlerts s)
  ∧ snd (Header.handleSettingsSave edited)
    = [mkToast ToastSuccess "Settings saved successfully"].
Proof.
  cbn zeta. split; [reflexivity|]. split; [|reflexivity].
  cbn [fst Header.handleSettingsSave]. unfold Header.setIsSettingsOpen.
  cbn [Header.weatherAlerts]. by rewrite switchAll_weatherAlerts.
Qed.
